(** * CSV pipeline of the test-case generator

    A shallow embedding of [src/utils/csvParser.js] (the line tokenizer and
    the header-driven record mapper), [src/utils/zephyrExporter.js] (the
    Zephyr formatter with its CSV escaping) and the plain-CSV branch of
    [handleExport] in the application component, followed by the properties
    the specification states about them.

    JavaScript strings are sequences of UTF-16 code units.  The model keeps
    the code units below 256, one per [ascii]; the string primitives
    ([trim], [toLowerCase], [split], ...) are the ECMAScript ones restricted
    to that range. *)

From Stdlib Require Import Ascii String QArith Qround DecimalNat DecimalString.
From stdpp Require Import gmap strings list.

(** ** String primitives *)

Module Js.

(** Line feed, double quote, as one-character strings. *)
Definition LF : string := String "010"%char EmptyString.
Definition DQ : string := String "034"%char EmptyString.

(** WhiteSpace and LineTerminator code units below 256: this is what
    [String.prototype.trim] strips and what the regular expression class
    [\s] matches. *)
Definition isWhiteSpace (c : ascii) : bool :=
  match c with
  | "009" | "010" | "011" | "012" | "013" | " " | "160" => true
  | _ => false
  end%char.

(** The regular expression class [\d]. *)
Definition isDigit (c : ascii) : bool :=
  match c with
  | "0" | "1" | "2" | "3" | "4" | "5" | "6" | "7" | "8" | "9" => true
  | _ => false
  end%char.

Fixpoint trimStart (s : string) : string :=
  match s with
  | EmptyString => EmptyString
  | String c r => if isWhiteSpace c then trimStart r else s
  end.

Fixpoint trimEnd (s : string) : string :=
  match s with
  | EmptyString => EmptyString
  | String c r =>
      match trimEnd r with
      | EmptyString => if isWhiteSpace c then EmptyString else String c EmptyString
      | r' => String c r'
      end
  end.

(** [s.trim()] *)
Definition trim (s : string) : string := trimEnd (trimStart s).

(** [s.startsWith(p)] *)
Fixpoint startsWith (p s : string) : bool :=
  match p, s with
  | EmptyString, _ => true
  | String a p', String b s' => bool_decide (a = b) && startsWith p' s'
  | String _ _, EmptyString => false
  end.

(** [s.includes(needle)] *)
Fixpoint includes (needle s : string) : bool :=
  startsWith needle s ||
  match s with
  | EmptyString => false
  | String _ r => includes needle r
  end.

(** [s.split(sep)] for a one-character separator; never the empty list. *)
Fixpoint split (sep : ascii) (s : string) : list string :=
  match s with
  | EmptyString => [EmptyString]
  | String c r =>
      if decide (c = sep) then EmptyString :: split sep r
      else match split sep r with
           | h :: t => String c h :: t
           | [] => [String c EmptyString]
           end
  end.

(** [l.join(sep)] on an array of strings. *)
Fixpoint join (sep : string) (l : list string) : string :=
  match l with
  | [] => EmptyString
  | [x] => x
  | x :: r => x +:+ sep +:+ join sep r
  end.

Definition lowerChar (c : ascii) : ascii :=
  let n := nat_of_ascii c in
  if (65 <=? n) && (n <=? 90) then ascii_of_nat (n + 32)
  else if (192 <=? n) && (n <=? 222) && negb (n =? 215) then ascii_of_nat (n + 32)
  else c.

(** [s.toLowerCase()] *)
Fixpoint toLowerCase (s : string) : string :=
  match s with
  | EmptyString => EmptyString
  | String c r => String (lowerChar c) (toLowerCase r)
  end.

(** [s.replace(/q/g, rep)] where [q] is the double quote: every double
    quote is replaced by [rep]. *)
Fixpoint replaceQuotes (rep : string) (s : string) : string :=
  match s with
  | EmptyString => EmptyString
  | String c r =>
      if decide (c = "034"%char) then rep +:+ replaceQuotes rep r
      else String c (replaceQuotes rep r)
  end.

(** [s.replace(/\s+/g, '_')]: every maximal run of white space becomes one
    underscore.  [inRun] tells that the previous code unit was white space. *)
Fixpoint replaceSpaceRunsFrom (inRun : bool) (s : string) : string :=
  match s with
  | EmptyString => EmptyString
  | String c r =>
      if isWhiteSpace c then
        if inRun then replaceSpaceRunsFrom true r
        else String "_"%char (replaceSpaceRunsFrom true r)
      else String c (replaceSpaceRunsFrom false r)
  end.

Definition replaceSpaceRuns (s : string) : string :=
  replaceSpaceRunsFrom false s.

End Js.

(** ** Data model *)

(** A value as the caller may hand it to the mapper ([result.csvContent]
    comes over IPC): only strings have a [trim] method. *)
Inductive JsVal :=
  | VUndefined
  | VNull
  | VBool (b : bool)
  | VNumber (q : Q)
  | VString (s : string)
  | VObject.

(** [!v] is [negb (truthy v)]. *)
Definition truthy (v : JsVal) : bool :=
  match v with
  | VUndefined | VNull => false
  | VBool b => b
  | VNumber q => negb (Qeq_bool q 0)
  | VString s => negb (bool_decide (s = EmptyString))
  | VObject => true
  end.

(** Abrupt completion of a JavaScript block. *)
Inductive JsError := TypeError.

Inductive Completion (A : Type) :=
  | Normal (a : A)
  | Throw (e : JsError).
Arguments Normal {A} a.
Arguments Throw {A} e.

#[global] Instance Completion_ret : MRet Completion := fun A a => Normal a.
#[global] Instance Completion_bind : MBind Completion := fun A B f m =>
  match m with
  | Normal a => f a
  | Throw e => Throw e
  end.

(** [try { body } catch (error) { handler }] *)
Definition tryCatch {A} (body : Completion A) (handler : JsError -> Completion A)
  : Completion A :=
  match body with
  | Normal a => Normal a
  | Throw e => handler e
  end.

(** The value of a property of a test-case object: a string, or the array
    of strings the mapper stores under [steps]. *)
Inductive PropVal :=
  | PStr (s : string)
  | PArr (a : list string).

#[global] Instance PropVal_eq_dec : EqDecision PropVal.
Proof. solve_decision. Defined.

(** The test-case object built by the mapper.  [qualityScore] is its only
    number-valued property and its camel-case name is never produced by the
    lower-cased keys of the default branch, so it is kept apart from the
    string-keyed properties; a missing key is [undefined]. *)
Record TestCase := mkTestCase {
  props : gmap string PropVal;
  qualityScore : option Q
}.

Definition emptyTestCase : TestCase := mkTestCase ∅ None.

(** [testCase[key] = v].  Assigning a string to [__proto__] goes to the
    setter inherited from [Object.prototype], which ignores it. *)
Definition setProp (key : string) (v : PropVal) (tc : TestCase) : TestCase :=
  if decide (key = "__proto__") then tc
  else mkTestCase (<[key := v]> (props tc)) (qualityScore tc).

Definition setQualityScore (q : Q) (tc : TestCase) : TestCase :=
  mkTestCase (props tc) (Some q).

(** Truthiness of [testCase.key]: [undefined] and the empty string are
    falsy, arrays are truthy. *)
Definition truthyProp (v : option PropVal) : bool :=
  match v with
  | None => false
  | Some (PStr s) => negb (bool_decide (s = EmptyString))
  | Some (PArr _) => true
  end.

(** ** csvParser.js *)

Module CsvParser.
Import Js.

(** The [while] loop of [parseCSVLine]; [line] is what remains from index
    [i] on. *)
Fixpoint parseCSVLineLoop (line : string) (inQuotes : bool) (current : string)
    (result : list string) : list string :=
  match line with
  | EmptyString => result ++ [trim current]
  | String char rest =>
      if decide (char = "034"%char) then
        match inQuotes, rest with
        | true, String "034"%char rest' =>
            parseCSVLineLoop rest' inQuotes (current +:+ DQ) result
        | _, _ => parseCSVLineLoop rest (negb inQuotes) current result
        end
      else if bool_decide (char = ","%char) && negb inQuotes then
        parseCSVLineLoop rest inQuotes EmptyString (result ++ [trim current])
      else
        parseCSVLineLoop rest inQuotes (current +:+ String char EmptyString) result
  end.

Definition parseCSVLine (line : string) : list string :=
  parseCSVLineLoop line false EmptyString [].

(** [lines.findIndex(p)]; [None] stands for -1. *)
Fixpoint findIndex {A} (p : A -> bool) (l : list A) : option nat :=
  match l with
  | [] => None
  | x :: r => if p x then Some 0 else S <$> findIndex p r
  end.

Definition isHeaderLine (line : string) : bool :=
  includes "testid" (toLowerCase line) ||
  includes "test id" (toLowerCase line) ||
  includes "title" (toLowerCase line).

(** [value || fallback] on strings. *)
Definition orDefault (value fallback : string) : string :=
  if decide (value = EmptyString) then fallback else value.

(** The maximal prefix of digits and what follows it. *)
Fixpoint spanDigits (s : string) : string * string :=
  match s with
  | EmptyString => (EmptyString, EmptyString)
  | String c r =>
      if isDigit c then let '(ds, rest) := spanDigits r in (String c ds, rest)
      else (EmptyString, s)
  end.

(** [s.replace(/^\d+\.\s*/, '')] *)
Definition stripNumbering (s : string) : string :=
  match spanDigits s with
  | (String _ _, String "."%char rest) => trimStart rest
  | _ => s
  end.

(** The steps cell: pipe-separated, else one step per line with its
    numbering removed, else a single step. *)
Definition decodeSteps (value : string) : list string :=
  if includes "|" value then trim <$> split "|"%char value
  else if includes LF value then
    (fun s => stripNumbering (trim s)) <$> split "010"%char value
  else [value].

(** [value.match(re)] for the score pattern [re] (one or more digits, an
    optional dot, any number of digits): the integer and fraction digits
    of the leftmost match, if any. *)
Fixpoint scoreMatch (value : string) : option (string * string) :=
  match value with
  | EmptyString => None
  | String c r =>
      if isDigit c then
        let '(ds, rest) := spanDigits value in
        Some (ds, match rest with
                  | String "."%char rest' => fst (spanDigits rest')
                  | _ => EmptyString
                  end)
      else scoreMatch r
  end.

Definition digitValue (c : ascii) : Z := Z.of_nat (nat_of_ascii c) - 48.

Fixpoint digitsValue (acc : Z) (s : string) : Z :=
  match s with
  | EmptyString => acc
  | String c r => digitsValue (10 * acc + digitValue c) r
  end.

(** [parseFloat] of a decimal literal: its value, as a reduced fraction
    (the rounding to the nearest double is not modelled). *)
Definition parseFloat (m : string * string) : Q :=
  let '(ip, fp) := m in
  Qred (Qmake (digitsValue (digitsValue 0 ip) fp)
              (Z.to_pos (10 ^ Z.of_nat (String.length fp)))).

(** The body of [headers.forEach]: the [switch] on the lower-cased header. *)
Definition assignField (header value : string) (testCase : TestCase) : TestCase :=
  let h := toLowerCase header in
  if decide (h = "testid" ∨ h = "test id") then setProp "id" (PStr value) testCase
  else if decide (h = "title") then setProp "title" (PStr value) testCase
  else if decide (h = "steps") then setProp "steps" (PArr (decodeSteps value)) testCase
  else if decide (h = "expected result" ∨ h = "expected") then
    setProp "expected" (PStr value) testCase
  else if decide (h = "priority") then
    setProp "priority" (PStr (orDefault value "Medium")) testCase
  else if decide (h = "category") then
    setProp "category" (PStr (orDefault value "Functional")) testCase
  else if decide (h = "type") then
    setProp "type" (PStr (orDefault value "Smoke")) testCase
  else if decide (h = "quality score") then
    setQualityScore (match scoreMatch value with
                     | Some m => parseFloat m
                     | None => 0%Q
                     end) testCase
  else setProp (replaceSpaceRuns h) (PStr value) testCase.

(** [headers.forEach((header, index) => ...)] from [index] on;
    [values[index] || ''] is the cell, the empty string when there is
    none. *)
Fixpoint forEachHeader (index : nat) (headers values : list string)
    (testCase : TestCase) : TestCase :=
  match headers with
  | [] => testCase
  | header :: rest =>
      forEachHeader (S index) rest values
        (assignField header (default EmptyString (values !! index)) testCase)
  end.

Definition mapRow (headers values : list string) : TestCase :=
  forEachHeader 0 headers values emptyTestCase.

(** The required-field gate [testCase.id && testCase.title]. *)
Definition hasRequiredFields (testCase : TestCase) : bool :=
  truthyProp (props testCase !! "id") && truthyProp (props testCase !! "title").

(** The first test of the loop body: empty and metadata lines. *)
Definition skipLine (line : string) : bool :=
  bool_decide (trim line = EmptyString) || startsWith "---" line ||
  includes "METADATA" line.

(** One iteration of [for (const line of dataLines)]: the record pushed,
    if any. *)
Definition processLine (headers : list string) (line : string) : option TestCase :=
  if skipLine line then None
  else
    let values := parseCSVLine line in
    if length values <? length headers then None
    else
      let testCase := mapRow headers values in
      if hasRequiredFields testCase then Some testCase else None.

(** [h.trim().replace(/q/g, '')] with [q] the double quote. *)
Definition cleanHeader (h : string) : string :=
  replaceQuotes EmptyString (trim h).

(** [headerLine.split(',').map(h => h.trim().replace(/q/g, ''))] *)
Definition headersOf (headerLine : string) : list string :=
  cleanHeader <$> split ","%char headerLine.

(** [csvContent.trim()]: a method call, a [TypeError] on a value without
    the method. *)
Definition callTrim (v : JsVal) : Completion string :=
  match v with
  | VString s => Normal (trim s)
  | _ => Throw TypeError
  end.

(** [lines[headerIndex].split(',')...]: a [TypeError] on [undefined]. *)
Definition headersAt (lines : list string) (headerIndex : nat)
  : Completion (list string) :=
  match lines !! headerIndex with
  | Some headerLine => Normal (headersOf headerLine)
  | None => Throw TypeError
  end.

Definition parseCSVToTestCases (csvContent : JsVal) : Completion (list TestCase) :=
  if negb (truthy csvContent) then Normal []
  else
    tryCatch
      (trimmed ← callTrim csvContent;
       let lines := split "010"%char trimmed in
       match findIndex isHeaderLine lines with
       | None => Normal []
       | Some headerIndex =>
           headers ← headersAt lines headerIndex;
           let dataLines := drop (headerIndex + 1) lines in
           Normal (omap (processLine headers) dataLines)
       end)
      (fun error => Normal []).

End CsvParser.

(** ** Conversions shared by the formatters *)

(** [String(v)] of a defined property value, as in a template literal:
    an array is its elements joined with commas. *)
Definition propToString (v : PropVal) : string :=
  match v with
  | PStr s => s
  | PArr a => Js.join "," a
  end.

(** A template literal [`${testCase.key}`]. *)
Definition templateString (v : option PropVal) : string :=
  match v with
  | None => "undefined"
  | Some x => propToString x
  end.

(** An element of an array under [join]: [undefined] is the empty string. *)
Definition joinElement (v : option PropVal) : string :=
  match v with
  | None => EmptyString
  | Some x => propToString x
  end.

(** [testCase.key || fallback] *)
Definition propOr (v : option PropVal) (fallback : string) : PropVal :=
  match v with
  | Some x => if truthyProp v then x else PStr fallback
  | None => PStr fallback
  end.

(** [String(n)] of a natural number. *)
Definition natToString (n : nat) : string :=
  NilEmpty.string_of_uint (Nat.to_uint n).

(** ** zephyrExporter.js *)

Module ZephyrExporter.
Import Js.

Definition zephyrHeaders : list string :=
  [ "Name"; "Status"; "Precondition"; "Objective"; "Folder"; "Priority";
    "Component"; "Labels"; "Owner"; "Estimated Time"; "Coverage (Issues)";
    "Coverage (Pages)"; "Test Script (Step-by-Step) - Step";
    "Test Script (Step-by-Step) - Test Data";
    "Test Script (Step-by-Step) - Expected Result";
    "Test Script (Plain Text)"; "Test Script (BDD)" ].

Definition escapeCSVField (field : PropVal) : string :=
  if negb (truthyProp (Some field)) then EmptyString
  else
    let stringField := propToString field in
    if includes "," stringField || includes LF stringField || includes DQ stringField
    then DQ +:+ replaceQuotes (DQ +:+ DQ) stringField +:+ DQ
    else stringField.

Definition formatLabels (testCase : TestCase) : string :=
  let category := props testCase !! "category" in
  let type := props testCase !! "type" in
  let labels :=
    (if truthyProp category then [joinElement category] else []) ++
    (if truthyProp type then [joinElement type] else []) in
  join ", " labels.

Definition estimateTime (testCase : TestCase) : string :=
  let steps := props testCase !! "steps" in
  if negb (truthyProp steps) then EmptyString
  else
    let stepCount := match steps with Some (PArr a) => length a | _ => 1 end in
    let estimatedMinutes := Nat.max (stepCount * 2) 5 in
    if 60 <=? estimatedMinutes then
      let hours := estimatedMinutes / 60 in
      let minutes := estimatedMinutes mod 60 in
      if 0 <? minutes then natToString hours +:+ "h " +:+ natToString minutes +:+ "m"
      else natToString hours +:+ "h"
    else natToString estimatedMinutes +:+ "m".

(** The keyword of one step of [generateBDDScript]. *)
Definition bddKeyword (index : nat) (stepText : string) : string :=
  let lower := toLowerCase stepText in
  if index =? 0 then "Given "
  else if includes "click" lower || includes "enter" lower ||
          includes "select" lower || includes "submit" lower then "When "
  else if includes "verify" lower || includes "should" lower ||
          includes "check" lower then "Then "
  else "And ".

(** [testCase.steps.forEach] of [generateBDDScript] from [index] on. *)
Fixpoint bddStepsFrom (index : nat) (steps : list string) (bddSteps : string) : string :=
  match steps with
  | [] => bddSteps
  | step :: rest =>
      let stepText := trim step in
      bddStepsFrom (S index) rest
        (bddSteps +:+ "  " +:+ bddKeyword index stepText +:+ stepText +:+ LF)
  end.

Definition generateBDDScript (testCase : TestCase) : string :=
  match props testCase !! "steps" with
  | Some (PArr steps) =>
      let scenario :=
        "Scenario: " +:+
        propToString (propOr (props testCase !! "title") "Test Scenario") +:+ LF in
      let bddSteps := bddStepsFrom 0 steps EmptyString in
      let bddSteps :=
        if truthyProp (props testCase !! "expected")
        then bddSteps +:+ "  Then " +:+ templateString (props testCase !! "expected") +:+ LF
        else bddSteps in
      scenario +:+ bddSteps
  | _ => EmptyString
  end.

(** [steps.map((step, index) => `${index + 1}. ${step}`)] *)
Definition numberSteps (steps : list string) : list string :=
  imap (fun index step => natToString (index + 1) +:+ ". " +:+ step) steps.

(** One element of [zephyrRows]: the seventeen cells, each as [join]
    renders it. *)
Definition zephyrRow (testCase : TestCase) : list string :=
  let stepText :=
    match props testCase !! "steps" with
    | Some (PArr steps) => join LF (numberSteps steps)
    | steps => propToString (propOr steps EmptyString)
    end in
  let testData := propOr (props testCase !! "testData") EmptyString in
  let expectedResult := propOr (props testCase !! "expected") EmptyString in
  let plainTextScript :=
    "Steps:" +:+ LF +:+ stepText +:+ LF +:+ LF +:+ "Expected Result:" +:+ LF +:+
    propToString expectedResult in
  let bddScript := generateBDDScript testCase in
  [ escapeCSVField (propOr (props testCase !! "title") EmptyString);
    "Approved";
    EmptyString;
    escapeCSVField (propOr (props testCase !! "title") EmptyString);
    "/Test Cases";
    propToString (propOr (props testCase !! "priority") "Medium");
    propToString (propOr (props testCase !! "category") "Functional");
    formatLabels testCase;
    EmptyString;
    estimateTime testCase;
    EmptyString;
    EmptyString;
    escapeCSVField (PStr stepText);
    escapeCSVField testData;
    escapeCSVField expectedResult;
    escapeCSVField (PStr plainTextScript);
    escapeCSVField (PStr bddScript) ].

Definition convertToZephyrCSV (testCases : list TestCase) : string :=
  let zephyrRows := zephyrRow <$> testCases in
  join LF (join "," zephyrHeaders :: ((fun row => join "," row) <$> zephyrRows)).

End ZephyrExporter.

(** ** The plain-CSV branch of handleExport *)

Module App.
Import Js.

(** [test_id] of an entry of the quality report, a JSON value. *)
Inductive JsonId :=
  | IdAbsent
  | IdString (s : string)
  | IdOther.

Record ScoreEntry := mkScoreEntry {
  test_id : JsonId;
  total_score : option Q
}.

Record QualityReport := mkQualityReport {
  individual_scores : option (list ScoreEntry)
}.

(** [s.test_id === testCase.id] *)
Definition strictEqualsId (i : JsonId) (id : option PropVal) : bool :=
  match i, id with
  | IdAbsent, None => true
  | IdString s, Some (PStr t) => bool_decide (s = t)
  | _, _ => false
  end.

(** [qualityReport?.individual_scores?.find(s => s.test_id === testCase.id)
    ?.total_score || 0] *)
Definition scoreFor (qualityReport : option QualityReport) (testCase : TestCase) : Q :=
  match qualityReport with
  | Some report =>
      match individual_scores report with
      | Some scores =>
          match List.find (fun s => strictEqualsId (test_id s) (props testCase !! "id")) scores with
          | Some s => default 0%Q (total_score s)
          | None => 0%Q
          end
      | None => 0%Q
      end
  | None => 0%Q
  end.

(** [x.toFixed(1)] of a positive number below 10^21 (from there on
    JavaScript prints an exponent, which is not modelled): the nearest
    multiple of one tenth, the larger one on a tie. *)
Definition toFixed1 (x : Q) : string :=
  let n := Z.to_nat (Qfloor (x * 10 + (1 # 2))) in
  natToString (n / 10) +:+ "." +:+ natToString (n mod 10).

Definition qualityCell (qualityScore : Q) : string :=
  if Qlt_le_dec 0 qualityScore then toFixed1 qualityScore +:+ "/10" else "N/A".

Definition csvHeaders : list string :=
  ["Test ID"; "Title"; "Steps"; "Expected Result"; "Priority"; "Quality Score"].

(** The array [row] of one test case, each element as [join] renders it. *)
Definition csvRow (qualityReport : option QualityReport) (testCase : TestCase)
  : list string :=
  let qualityScore := scoreFor qualityReport testCase in
  let steps :=
    match props testCase !! "steps" with
    | Some (PArr a) => Some (PStr (join " | " a))
    | other => other
    end in
  [ joinElement (props testCase !! "id");
    DQ +:+ templateString (props testCase !! "title") +:+ DQ;
    DQ +:+ templateString steps +:+ DQ;
    DQ +:+ templateString (props testCase !! "expected") +:+ DQ;
    joinElement (props testCase !! "priority");
    qualityCell qualityScore ].

(** [content] after the [forEach] of the branch [format === 'csv']. *)
Definition handleExportCsv (qualityReport : option QualityReport)
    (generatedCases : list TestCase) : string :=
  fold_left (fun content testCase =>
               content +:+ join "," (csvRow qualityReport testCase) +:+ LF)
            generatedCases
            (join "," csvHeaders +:+ LF).

End App.

(** ** Inputs of the scenarios *)

Module Scenario.
Import Js.

(** The two lines of the end-to-end scenario of the specification. *)
Definition e2eInput : string :=
  "TestID,Title,Steps,Expected Result,Priority" +:+ LF +:+
  "TC-001,Login works," +:+ DQ +:+ "Enter user|Click login" +:+ DQ +:+
  ",User is logged in,High".

Definition e2eRecord : TestCase :=
  mkTestCase
    (list_to_map
       [ ("id", PStr "TC-001"); ("title", PStr "Login works");
         ("steps", PArr ["Enter user"; "Click login"]);
         ("expected", PStr "User is logged in"); ("priority", PStr "High") ])
    None.

Definition e2eRow : string :=
  "TC-001," +:+ DQ +:+ "Login works" +:+ DQ +:+ "," +:+
  DQ +:+ "Enter user | Click login" +:+ DQ +:+ "," +:+
  DQ +:+ "User is logged in" +:+ DQ +:+ ",High,N/A".

(** A two-line input with empty category and type cells: the mapper
    fills in the defaults. *)
Definition labelsInput : string :=
  "TestID,Title,Category,Type" +:+ LF +:+ "TC-1,Login,,".

(** A two-line input with a score column. *)
Definition scoreInput : string :=
  "TestID,Title,Quality Score" +:+ LF +:+ "TC-1,Login,7.5/10".

(** A header line with quoted column names, one of them holding a comma,
    and a data line with one cell per column. *)
Definition quotedHeaderLine : string :=
  DQ +:+ "Test ID" +:+ DQ +:+ "," +:+ DQ +:+ "Title" +:+ DQ +:+ "," +:+
  DQ +:+ "Steps, ordered" +:+ DQ.

Definition quotedDataLine : string :=
  "TC-1,Login," +:+ DQ +:+ "a|b" +:+ DQ.

Definition quotedHeaderInput : string :=
  quotedHeaderLine +:+ LF +:+ quotedDataLine.

End Scenario.

(** ** Predicates of the statements *)

(** A string without leading and trailing white space: a fixed point of
    [trim]. *)
Definition trimmed (s : string) : Prop := Js.trim s = s.

(** A string that [escapeCSVField] wraps in quotes. *)
Definition needsQuoting (s : string) : Prop :=
  Js.includes "," s = true \/ Js.includes Js.DQ s = true \/ Js.includes Js.LF s = true.

(** A step without pipe and without line feed. *)
Definition plainStep (s : string) : Prop :=
  Js.includes "|" s = false /\ Js.includes Js.LF s = false.

(** A header under which the mapper writes [testCase.id]: the two aliases,
    and [id] itself through the default branch. *)
Definition writesId (header : string) : Prop :=
  Js.toLowerCase header = "testid" \/ Js.toLowerCase header = "test id" \/
  Js.toLowerCase header = "id".

(** A header under which the mapper writes [testCase.steps]. *)
Definition writesSteps (header : string) : Prop :=
  Js.toLowerCase header = "steps".

(** The key written by [assignField], if it writes a property at all. *)
Definition keyOf (header : string) : option string :=
  let h := Js.toLowerCase header in
  if decide (h = "testid" \/ h = "test id") then Some "id"
  else if decide (h = "title") then Some "title"
  else if decide (h = "steps") then Some "steps"
  else if decide (h = "expected result" \/ h = "expected") then Some "expected"
  else if decide (h = "priority") then Some "priority"
  else if decide (h = "category") then Some "category"
  else if decide (h = "type") then Some "type"
  else if decide (h = "quality score") then None
  else Some (Js.replaceSpaceRuns h).

(** What every object built by the mapper satisfies: its strings are
    trimmed and an array is only ever stored under [steps]. *)
Definition wellFormed (testCase : TestCase) : Prop :=
  (forall k v, props testCase !! k = Some (PStr v) -> trimmed v) /\
  (forall k a, props testCase !! k = Some (PArr a) -> k = "steps").

(** ** Predicates of the further properties *)

(** A string without double quote. *)
Definition quoteFree (s : string) : Prop := Js.includes Js.DQ s = false.

(** [raw] is a CSV rendering of the field [s]: [s] itself when it holds
    neither comma nor quote, or [s] between quotes with its quotes
    doubled. *)
Definition fieldEncodes (raw s : string) : Prop :=
  (raw = s /\ Js.includes "," s = false /\ quoteFree s) \/
  raw = Js.DQ +:+ Js.replaceQuotes (Js.DQ +:+ Js.DQ) s +:+ Js.DQ.

(** The carriage return a Windows line ending leaves at the end of a line
    split at line feeds. *)
Definition CR : string := String "013"%char EmptyString.

(** The fallback of the three defaulted columns. *)
Definition defaultOf (key : string) : option string :=
  if decide (key = "priority") then Some "Medium"
  else if decide (key = "category") then Some "Functional"
  else if decide (key = "type") then Some "Smoke"
  else None.

(** A non-empty string of decimal digits: [spanDigits] takes it whole. *)
Definition digitString (s : string) : Prop :=
  s <> EmptyString /\ CsvParser.spanDigits s = (s, EmptyString).





(** The contents of the seventeen cells of a Zephyr row, before any
    escaping. *)
Definition zephyrCells (testCase : TestCase) : list string :=
  let stepText :=
    match props testCase !! "steps" with
    | Some (PArr steps) => Js.join Js.LF (ZephyrExporter.numberSteps steps)
    | steps => propToString (propOr steps EmptyString)
    end in
  let expectedResult := propOr (props testCase !! "expected") EmptyString in
  [ propToString (propOr (props testCase !! "title") EmptyString);
    "Approved";
    EmptyString;
    propToString (propOr (props testCase !! "title") EmptyString);
    "/Test Cases";
    propToString (propOr (props testCase !! "priority") "Medium");
    propToString (propOr (props testCase !! "category") "Functional");
    ZephyrExporter.formatLabels testCase;
    EmptyString;
    ZephyrExporter.estimateTime testCase;
    EmptyString;
    EmptyString;
    stepText;
    propToString (propOr (props testCase !! "testData") EmptyString);
    propToString expectedResult;
    "Steps:" +:+ Js.LF +:+ stepText +:+ Js.LF +:+ Js.LF +:+ "Expected Result:" +:+ Js.LF +:+
      propToString expectedResult;
    ZephyrExporter.generateBDDScript testCase ].


(** * Properties *)

(** ** Facts about the string primitives *)

Module JsFacts.
Import Js.

Lemma append_cons c s t : String c s +:+ t = String c (s +:+ t).
Proof. reflexivity. Qed.

Lemma append_empty_l s : EmptyString +:+ s = s.
Proof. reflexivity. Qed.

Lemma append_empty_r s : s +:+ EmptyString = s.
Proof. induction s as [|c s IH]; [done|]. by rewrite append_cons, IH. Qed.

Lemma append_assoc s t u : (s +:+ t) +:+ u = s +:+ (t +:+ u).
Proof. induction s as [|c s IH]; [done|]. by rewrite !append_cons, IH. Qed.

Lemma append_snoc s c t : (s +:+ String c EmptyString) +:+ t = s +:+ String c t.
Proof. by rewrite append_assoc. Qed.

(** A one-character needle occurs in [s] iff it is one of its code units. *)
Lemma includes_char_cons c d r :
  includes (String c EmptyString) (String d r) =
  bool_decide (c = d) || includes (String c EmptyString) r.
Proof. cbn. by rewrite andb_true_r. Qed.

Lemma includes_char_empty c : includes (String c EmptyString) EmptyString = false.
Proof. reflexivity. Qed.

Lemma includes_char_app c s t :
  includes (String c EmptyString) (s +:+ t) =
  includes (String c EmptyString) s || includes (String c EmptyString) t.
Proof.
  induction s as [|d s IH].
  - by rewrite append_empty_l, includes_char_empty.
  - by rewrite append_cons, !includes_char_cons, IH, orb_assoc.
Qed.

(** *** trim *)

Lemma trimStart_length s : String.length (trimStart s) <= String.length s.
Proof.
  induction s as [|c s IH]; simpl; [lia|].
  destruct (isWhiteSpace c); simpl; lia.
Qed.

Lemma trimStart_head c r :
  trimStart (String c r) = String c r -> isWhiteSpace c = false.
Proof.
  simpl. destruct (isWhiteSpace c); [|done].
  intros E. pose proof (trimStart_length r) as L.
  rewrite E in L. simpl in L. lia.
Qed.

Lemma trimStart_idempotent s : trimStart (trimStart s) = trimStart s.
Proof.
  induction s as [|c s IH]; [done|]. simpl.
  destruct (isWhiteSpace c) eqn:E; [done|]. simpl. by rewrite E.
Qed.

Lemma trimEnd_cons c r :
  trimEnd (String c r) =
  match trimEnd r with
  | EmptyString => if isWhiteSpace c then EmptyString else String c EmptyString
  | r' => String c r'
  end.
Proof. reflexivity. Qed.

Lemma trimEnd_idempotent s : trimEnd (trimEnd s) = trimEnd s.
Proof.
  induction s as [|c s IH]; [done|].
  rewrite trimEnd_cons. destruct (trimEnd s) as [|d t] eqn:E.
  - destruct (isWhiteSpace c) eqn:W; [done|].
    rewrite trimEnd_cons. simpl. by rewrite W.
  - rewrite trimEnd_cons. by rewrite IH.
Qed.

Lemma trimStart_trimEnd t :
  trimStart t = t -> trimStart (trimEnd t) = trimEnd t.
Proof.
  destruct t as [|c r]; [done|]. intros W%trimStart_head.
  rewrite trimEnd_cons. destruct (trimEnd r); rewrite ?W; simpl; by rewrite W.
Qed.

Lemma trim_idempotent s : trim (trim s) = trim s.
Proof.
  unfold trim.
  rewrite trimStart_trimEnd by apply trimStart_idempotent.
  apply trimEnd_idempotent.
Qed.

Lemma trimmed_trim s : trimmed (trim s).
Proof. apply trim_idempotent. Qed.

(** *** split and join *)

Lemma split_no_sep sep s :
  includes (String sep EmptyString) s = false -> split sep s = [s].
Proof.
  induction s as [|c s IH]; [done|].
  rewrite includes_char_cons. intros [Hc Hs]%orb_false_elim.
  apply bool_decide_eq_false in Hc. simpl.
  destruct (decide (c = sep)) as [->|_]; [done|]. by rewrite (IH Hs).
Qed.

Lemma split_app_sep sep s t :
  includes (String sep EmptyString) s = false ->
  split sep (s +:+ String sep t) = s :: split sep t.
Proof.
  induction s as [|c s IH].
  - intros _. rewrite append_empty_l. simpl. by destruct (decide (sep = sep)).
  - rewrite includes_char_cons. intros [Hc Hs]%orb_false_elim.
    apply bool_decide_eq_false in Hc. rewrite append_cons. simpl.
    destruct (decide (c = sep)) as [->|_]; [done|]. by rewrite (IH Hs).
Qed.

Lemma join_cons_cons sep x y l :
  join sep (x :: y :: l) = x +:+ sep +:+ join sep (y :: l).
Proof. reflexivity. Qed.

Lemma split_join sep (l : list string) :
  l <> [] ->
  Forall (fun s => includes (String sep EmptyString) s = false) l ->
  split sep (join (String sep EmptyString) l) = l.
Proof.
  intros Hne Hall. induction Hall as [|x l Hx Hl IH]; [done|].
  destruct l as [|y l].
  - simpl. by apply split_no_sep.
  - rewrite join_cons_cons, append_cons, append_empty_l.
    rewrite split_app_sep by done. by rewrite IH.
Qed.

Lemma includes_join_sep sep x y (l : list string) :
  includes (String sep EmptyString) (join (String sep EmptyString) (x :: y :: l)) = true.
Proof.
  rewrite join_cons_cons, includes_char_app, append_cons, includes_char_cons.
  rewrite bool_decide_eq_true_2 by done. apply orb_true_r.
Qed.

End JsFacts.

(** ** The line tokenizer *)

Module TokenizerFacts.
Import Js JsFacts CsvParser ZephyrExporter.

Lemma parseCSVLineLoop_cons char rest inQuotes current result :
  parseCSVLineLoop (String char rest) inQuotes current result =
  if decide (char = "034"%char) then
    match inQuotes, rest with
    | true, String "034"%char rest' =>
        parseCSVLineLoop rest' inQuotes (current +:+ DQ) result
    | _, _ => parseCSVLineLoop rest (negb inQuotes) current result
    end
  else if bool_decide (char = ","%char) && negb inQuotes then
    parseCSVLineLoop rest inQuotes EmptyString (result ++ [trim current])
  else
    parseCSVLineLoop rest inQuotes (current +:+ String char EmptyString) result.
Proof. reflexivity. Qed.

(** Inside a quoted span the loop copies the escaped text back, one quote
    for each doubled quote, up to the closing quote. *)
Lemma parseCSVLineLoop_quoted s current result :
  parseCSVLineLoop (replaceQuotes (DQ +:+ DQ) s +:+ DQ) true current result =
  result ++ [trim (current +:+ s)].
Proof.
  revert current. induction s as [|c s IH]; intros current.
  - by rewrite append_empty_r.
  - simpl replaceQuotes. destruct (decide (c = "034"%char)) as [->|Hc].
    + change (((DQ +:+ DQ) +:+ replaceQuotes (DQ +:+ DQ) s) +:+ DQ)
        with (String "034" (String "034" (replaceQuotes (DQ +:+ DQ) s +:+ DQ))).
      rewrite parseCSVLineLoop_cons. simpl decide. cbv iota.
      rewrite IH. by rewrite append_assoc.
    + rewrite append_cons, parseCSVLineLoop_cons.
      destruct (decide (c = "034"%char)); [done|].
      rewrite andb_false_r, IH. by rewrite append_snoc.
Qed.

(** Outside quotes, text without comma and quote is copied as it is. *)
Lemma parseCSVLineLoop_plain s current result :
  includes "," s = false -> includes DQ s = false ->
  parseCSVLineLoop s false current result = result ++ [trim (current +:+ s)].
Proof.
  revert current. induction s as [|c s IH]; intros current.
  - intros _ _. by rewrite append_empty_r.
  - unfold DQ. rewrite !includes_char_cons.
    intros [Hc1 Hs1]%orb_false_elim [Hc2 Hs2]%orb_false_elim.
    apply bool_decide_eq_false in Hc1, Hc2.
    rewrite parseCSVLineLoop_cons.
    destruct (decide (c = "034"%char)); [congruence|].
    rewrite bool_decide_eq_false_2 by congruence. simpl andb.
    rewrite IH by done. by rewrite append_snoc.
Qed.

(** The tokenizer undoes the escaping up to the final [trim]. *)
Lemma parseCSVLine_escapeCSVField s :
  parseCSVLine (escapeCSVField (PStr s)) = [trim s].
Proof.
  unfold escapeCSVField, parseCSVLine. simpl truthyProp. rewrite negb_involutive.
  case_bool_decide as Hs; [by subst|].
  simpl propToString.
  destruct (includes "," s || includes LF s || includes DQ s) eqn:Hq.
  - change (DQ +:+ replaceQuotes (DQ +:+ DQ) s +:+ DQ)
      with (String "034" (replaceQuotes (DQ +:+ DQ) s +:+ DQ)).
    rewrite parseCSVLineLoop_cons. simpl decide. cbv iota. simpl negb.
    by rewrite parseCSVLineLoop_quoted.
  - apply orb_false_elim in Hq as [[H1 _]%orb_false_elim H3].
    by rewrite parseCSVLineLoop_plain.
Qed.

(** Every field the tokenizer returns has been trimmed. *)
Lemma parseCSVLineLoop_trimmed line inQuotes current result :
  Forall trimmed result ->
  Forall trimmed (parseCSVLineLoop line inQuotes current result).
Proof.
  revert inQuotes current result.
  induction line as [line IH] using (well_founded_induction
    (well_founded_ltof _ String.length)).
  intros inQuotes current result Hres. destruct line as [|c rest].
  - simpl. apply Forall_app. split; [done|]. repeat constructor. apply trimmed_trim.
  - rewrite parseCSVLineLoop_cons.
    assert (Hrest : forall iq cur res, Forall trimmed res ->
              Forall trimmed (parseCSVLineLoop rest iq cur res)).
    { intros. apply IH; [unfold ltof; simpl; lia|done]. }
    destruct (decide (c = "034"%char)).
    + destruct inQuotes; [|by apply Hrest].
      destruct rest as [|d rest']; [by apply Hrest|].
      destruct d as [[] [] [] [] [] [] [] []]; try by apply Hrest.
      apply IH; [unfold ltof; simpl; lia|done].
    + destruct (bool_decide (c = ","%char) && negb inQuotes); apply Hrest; [|done].
      apply Forall_app. split; [done|]. repeat constructor. apply trimmed_trim.
Qed.

Lemma parseCSVLine_trimmed line : Forall trimmed (parseCSVLine line).
Proof. by apply parseCSVLineLoop_trimmed. Qed.

End TokenizerFacts.

(** ** The record mapper *)

Module MapperFacts.
Import Js JsFacts CsvParser TokenizerFacts.

Lemma lookup_setProp key v testCase k :
  props (setProp key v testCase) !! k =
  if decide (key = "__proto__") then props testCase !! k
  else <[key := v]> (props testCase) !! k.
Proof. unfold setProp. by case_decide. Qed.

Lemma lookup_setProp_ne key v testCase k :
  key <> k -> props (setProp key v testCase) !! k = props testCase !! k.
Proof.
  intros Hne. rewrite lookup_setProp. case_decide; [done|].
  by rewrite lookup_insert_ne.
Qed.

Lemma lookup_setProp_eq key v testCase :
  key <> "__proto__" -> props (setProp key v testCase) !! key = Some v.
Proof.
  intros Hne. rewrite lookup_setProp. case_decide; [done|].
  by rewrite lookup_insert_eq.
Qed.

Lemma wellFormed_empty : wellFormed emptyTestCase.
Proof. split; intros k x; simpl; by rewrite lookup_empty. Qed.

Lemma wellFormed_setProp_str key v testCase :
  trimmed v -> wellFormed testCase -> wellFormed (setProp key (PStr v) testCase).
Proof.
  intros Hv [Hstr Harr]. split; intros k x; rewrite lookup_setProp;
    case_decide; eauto; rewrite lookup_insert; case_decide; eauto; congruence.
Qed.

Lemma wellFormed_setProp_steps a testCase :
  wellFormed testCase -> wellFormed (setProp "steps" (PArr a) testCase).
Proof.
  intros [Hstr Harr]. split; intros k x; rewrite lookup_setProp;
    case_decide; eauto; rewrite lookup_insert; case_decide; eauto; congruence.
Qed.

Lemma wellFormed_setQualityScore q testCase :
  wellFormed testCase -> wellFormed (setQualityScore q testCase).
Proof. done. Qed.

Lemma trimmed_orDefault value fallback :
  trimmed value -> trimmed fallback -> trimmed (orDefault value fallback).
Proof. unfold orDefault. by case_decide. Qed.

Lemma wellFormed_assignField header value testCase :
  trimmed value -> wellFormed testCase ->
  wellFormed (assignField header value testCase).
Proof.
  intros Hv Hwf. unfold assignField.
  repeat case_decide;
    first [ by apply wellFormed_setProp_steps
          | by apply wellFormed_setQualityScore
          | apply wellFormed_setProp_str; [|done];
            first [ done | by apply trimmed_orDefault ] ].
Qed.

Lemma trimmed_cell (values : list string) index :
  Forall trimmed values -> trimmed (default EmptyString (values !! index)).
Proof.
  intros Hall. destruct (values !! index) as [v|] eqn:E; [|done].
  simpl. eapply Forall_lookup_1; eauto.
Qed.

Lemma wellFormed_forEachHeader index headers values testCase :
  Forall trimmed values -> wellFormed testCase ->
  wellFormed (forEachHeader index headers values testCase).
Proof.
  intros Hall. revert index testCase.
  induction headers as [|h hs IH]; intros index testCase Hwf; [done|].
  simpl. apply IH. apply wellFormed_assignField; [|done]. by apply trimmed_cell.
Qed.

Lemma wellFormed_mapRow headers line : wellFormed (mapRow headers (parseCSVLine line)).
Proof.
  apply wellFormed_forEachHeader;
    [apply parseCSVLine_trimmed | apply wellFormed_empty].
Qed.

(** What [processLine] pushes passed the gate and was built by [mapRow]. *)
Lemma processLine_Some headers line testCase :
  processLine headers line = Some testCase ->
  skipLine line = false /\
  length headers <= length (parseCSVLine line) /\
  testCase = mapRow headers (parseCSVLine line) /\
  hasRequiredFields testCase = true.
Proof.
  unfold processLine. destruct (skipLine line); [done|].
  destruct (_ <? _) eqn:L; [done|]. apply Nat.ltb_ge in L.
  destruct (hasRequiredFields _) eqn:E; [|done].
  intros [= <-]. done.
Qed.

Lemma findIndex_Some {A} (p : A -> bool) (l : list A) i :
  findIndex p l = Some i -> exists x, l !! i = Some x /\ p x = true.
Proof.
  revert i. induction l as [|x l IH]; intros i; simpl; [done|].
  destruct (p x) eqn:E.
  - intros [= <-]. eauto.
  - destruct (findIndex p l) as [j|]; simpl; [|done].
    intros [= <-]. by apply IH.
Qed.

(** Every record returned comes from one iteration of the loop: from a
    line of the trimmed input, under the column names of its header
    line. *)
Lemma parseCSVToTestCases_elem csvContent testCases testCase :
  parseCSVToTestCases csvContent = Normal testCases ->
  testCase ∈ testCases ->
  exists s headerLine line,
    csvContent = VString s /\
    headerLine ∈ split "010"%char (trim s) /\
    isHeaderLine headerLine = true /\
    line ∈ split "010"%char (trim s) /\
    processLine (headersOf headerLine) line = Some testCase.
Proof.
  unfold parseCSVToTestCases. destruct (negb (truthy csvContent)).
  { intros [= <-] H. by apply elem_of_nil in H. }
  destruct csvContent as [| | | |s|]; simpl;
    try (intros [= <-] H; by apply elem_of_nil in H).
  destruct (findIndex _ _) as [i|] eqn:Ei; simpl;
    [|intros [= <-] H; by apply elem_of_nil in H].
  apply findIndex_Some in Ei as (headerLine & Hi & Hheader).
  unfold headersAt. rewrite Hi. simpl.
  intros [= <-] H. apply list_elem_of_omap in H as (line & Hin & Hline).
  exists s, headerLine, line. split; [done|].
  split; [by eapply list_elem_of_lookup_2|]. split; [done|].
  split; [|done]. by eapply subseteq_drop.
Qed.

(** *** Which headers write which key *)

Lemma forEachHeader_app index hs1 hs2 values testCase :
  forEachHeader index (hs1 ++ hs2) values testCase =
  forEachHeader (index + length hs1) hs2 values
    (forEachHeader index hs1 values testCase).
Proof.
  revert index testCase. induction hs1 as [|h hs1 IH]; intros index testCase.
  - simpl. by rewrite Nat.add_0_r.
  - simpl. rewrite IH. f_equal. lia.
Qed.

(** A key without underscore comes from exactly itself. *)
Lemma replaceSpaceRuns_no_underscore s k :
  includes "_" k = false -> replaceSpaceRuns s = k -> s = k.
Proof.
  unfold replaceSpaceRuns. revert k. induction s as [|c s IH]; intros k Hk; [done|].
  simpl. destruct (isWhiteSpace c).
  - intros <-. by rewrite includes_char_cons in Hk.
  - destruct k as [|d k]; [done|]. intros [= -> E].
    rewrite includes_char_cons in Hk. apply orb_false_elim in Hk as [_ Hk].
    f_equal. by apply IH.
Qed.

Lemma assignField_other header value testCase k :
  keyOf header <> Some k ->
  props (assignField header value testCase) !! k = props testCase !! k.
Proof.
  unfold keyOf, assignField. intros Hk.
  repeat case_decide; try done; apply lookup_setProp_ne; congruence.
Qed.

Lemma keyOf_id header : keyOf header = Some "id" -> writesId header.
Proof.
  unfold keyOf, writesId. repeat case_decide; try done; [tauto|].
  intros [= E]. apply replaceSpaceRuns_no_underscore in E; auto.
Qed.

Lemma keyOf_steps header : keyOf header = Some "steps" -> writesSteps header.
Proof.
  unfold keyOf, writesSteps. repeat case_decide; try done.
  intros [= E]. by apply replaceSpaceRuns_no_underscore in E.
Qed.

Lemma assignField_id header value testCase :
  writesId header ->
  props (assignField header value testCase) !! "id" = Some (PStr value).
Proof.
  unfold writesId, assignField. intros H.
  case_decide as H1; [by apply lookup_setProp_eq|].
  destruct H as [H|[H|H]]; [tauto..|]. rewrite H.
  repeat (case_decide; [done|]). by apply lookup_setProp_eq.
Qed.

Lemma assignField_steps header value testCase :
  writesSteps header ->
  props (assignField header value testCase) !! "steps" = Some (PArr (decodeSteps value)).
Proof.
  unfold writesSteps, assignField. intros ->.
  rewrite decide_False by (intros [?|?]; discriminate).
  rewrite decide_False by discriminate.
  rewrite decide_True by done. by apply lookup_setProp_eq.
Qed.

Lemma forEachHeader_other index headers values testCase k :
  Forall (fun h => keyOf h <> Some k) headers ->
  props (forEachHeader index headers values testCase) !! k = props testCase !! k.
Proof.
  intros Hall. revert index testCase.
  induction Hall as [|h hs Hh Hhs IH]; intros index testCase; [done|].
  simpl. rewrite IH. by apply assignField_other.
Qed.

(** The record's id is the cell under the last header that writes it. *)
Lemma mapRow_id hs1 h hs2 values :
  writesId h -> Forall (fun h' => ~ writesId h') hs2 ->
  props (mapRow (hs1 ++ h :: hs2) values) !! "id" =
  Some (PStr (default EmptyString (values !! length hs1))).
Proof.
  intros Hh Hhs. unfold mapRow. rewrite forEachHeader_app. simpl.
  rewrite forEachHeader_other.
  - by apply assignField_id.
  - eapply Forall_impl; [exact Hhs|]. intros h' Hn E. by apply Hn, keyOf_id.
Qed.

(** The record's steps are decoded from the cell under the last header
    that writes them. *)
Lemma mapRow_steps hs1 h hs2 values :
  writesSteps h -> Forall (fun h' => ~ writesSteps h') hs2 ->
  props (mapRow (hs1 ++ h :: hs2) values) !! "steps" =
  Some (PArr (decodeSteps (default EmptyString (values !! length hs1)))).
Proof.
  intros Hh Hhs. unfold mapRow. rewrite forEachHeader_app. simpl.
  rewrite forEachHeader_other.
  - by apply assignField_steps.
  - eapply Forall_impl; [exact Hhs|]. intros h' Hn E. by apply Hn, keyOf_steps.
Qed.

(** Only the cells under the headers are read. *)
Lemma forEachHeader_take index headers values testCase n :
  index + length headers <= n ->
  forEachHeader index headers (take n values) testCase =
  forEachHeader index headers values testCase.
Proof.
  revert index testCase. induction headers as [|h hs IH]; intros index testCase Hn; [done|].
  simpl in *. rewrite lookup_take_lt by lia. apply IH. lia.
Qed.

Lemma findIndex_None {A} (p : A -> bool) (l : list A) :
  findIndex p l = None <-> forall x, x ∈ l -> p x = false.
Proof.
  induction l as [|x l IH]; simpl.
  - split; [|done]. intros _ y Hy. by apply elem_of_nil in Hy.
  - destruct (p x) eqn:E.
    + split; [done|]. intros H. specialize (H x (list_elem_of_here _ _)). congruence.
    + rewrite fmap_None, IH. split.
      * intros H y [->|Hy]%elem_of_cons; auto.
      * intros H y Hy. apply H. by apply list_elem_of_further.
Qed.

End MapperFacts.

(** ** The claims of the specification *)

Import Js JsFacts CsvParser ZephyrExporter App TokenizerFacts MapperFacts Scenario.

(** C1 as stated fails: the plain-CSV branch looks the score up in the
    quality report of the application, and with a report that scores
    TC-001 the same record sequence is exported with that score in the
    last cell, not N/A. *)
Lemma end_to_end_scenario_counterexample :
  parseCSVToTestCases (VString e2eInput) = Normal [e2eRecord] /\
  handleExportCsv
    (Some (mkQualityReport (Some [mkScoreEntry (IdString "TC-001") (Some (29 # 4))])))
    [e2eRecord] <>
  join "," csvHeaders +:+ LF +:+ e2eRow +:+ LF.
Proof. split; [vm_compute; reflexivity|]. vm_compute. discriminate. Qed.

(** C1, amended.  End-to-end scenario: the two-line input of the
    specification is mapped to exactly one record, with id TC-001, title
    Login works, the two steps, the expected result and priority High;
    exported as plain CSV under a quality report that holds no positive
    score for TC-001 (no report at all, no entry for that id, or an entry
    with a score that is not positive), the content is the header line
    followed by the data row of the specification, score N/A. *)
Theorem end_to_end_scenario (qualityReport : option QualityReport) :
  ~ (0 < scoreFor qualityReport e2eRecord)%Q ->
  parseCSVToTestCases (VString e2eInput) = Normal [e2eRecord] /\
  handleExportCsv qualityReport [e2eRecord] =
    join "," csvHeaders +:+ LF +:+ e2eRow +:+ LF.
Proof.
  intros Hscore. split; [vm_compute; reflexivity|].
  unfold handleExportCsv. cbn [fold_left]. unfold csvRow.
  assert (Hcell : qualityCell (scoreFor qualityReport e2eRecord) = "N/A").
  { unfold qualityCell. by destruct (Qlt_le_dec 0 (scoreFor qualityReport e2eRecord)). }
  rewrite Hcell. reflexivity.
Qed.

Lemma end_to_end_scenario_witness :
  parseCSVToTestCases (VString e2eInput) = Normal [e2eRecord] /\
  handleExportCsv None [e2eRecord] = join "," csvHeaders +:+ LF +:+ e2eRow +:+ LF.
Proof.
  apply (end_to_end_scenario None). intros H. vm_compute in H. discriminate H.
Defined.

(** C2.  The mapper never raises to its caller: whatever value it is
    given it returns a sequence of records; on a string without header
    line that sequence is empty, and so it is whenever the body of the
    [try] block throws. *)
Theorem parseCSVToTestCases_never_throws (csvContent : JsVal) :
  (exists testCases, parseCSVToTestCases csvContent = Normal testCases) /\
  (forall s, csvContent = VString s ->
     (forall line, line ∈ split "010"%char (trim s) -> isHeaderLine line = false) ->
     parseCSVToTestCases csvContent = Normal []) /\
  (forall e, callTrim csvContent = Throw e ->
     parseCSVToTestCases csvContent = Normal []).
Proof.
  split; [|split].
  - unfold parseCSVToTestCases. destruct (negb (truthy csvContent)); [eauto|].
    destruct (callTrim csvContent) as [trimmed|e]; simpl; [|eauto].
    destruct (findIndex _ _) as [i|]; simpl; [|eauto].
    destruct (headersAt _ i); simpl; eauto.
  - intros s -> Hno. apply findIndex_None in Hno.
    unfold parseCSVToTestCases. destruct (negb (truthy (VString s))); [done|].
    simpl. by rewrite Hno.
  - intros e He. unfold parseCSVToTestCases.
    destruct (negb (truthy csvContent)); [done|]. by rewrite He.
Qed.

Lemma parseCSVToTestCases_never_throws_witness :
  parseCSVToTestCases (VString "Generated 3 test cases") = Normal [] /\
  parseCSVToTestCases (VNumber 42) = Normal [].
Proof.
  split.
  - apply (proj1 (proj2 (parseCSVToTestCases_never_throws _)) _ eq_refl).
    intros line [->|H]%elem_of_cons; [reflexivity|]. by apply elem_of_nil in H.
  - apply (proj2 (proj2 (parseCSVToTestCases_never_throws _)) TypeError).
    reflexivity.
Defined.

(** C3 as stated fails: beside TestID and Test ID, a column named ID is
    stored under the same key by the default branch, and the last such
    column wins; a row whose TestID cell is empty is output with the id of
    its ID cell. *)
Lemma required_field_gate_counterexample :
  exists testCase,
    parseCSVToTestCases (VString ("TestID,Title,ID" +:+ LF +:+ ",Login,X-9")) =
      Normal [testCase] /\
    headersOf "TestID,Title,ID" !! 0 = Some "TestID" /\
    parseCSVLine ",Login,X-9" !! 0 = Some EmptyString /\
    props testCase !! "id" = Some (PStr "X-9").
Proof.
  eexists. split; [vm_compute; reflexivity|].
  split; [reflexivity|]. split; reflexivity.
Qed.

(** C3, amended.  Required-field gate: every record the mapper returns
    was built from a line of the input under the column names of the
    header line, and has a non-empty, trimmed id and a non-empty, trimmed
    title; its id is the line's cell under the last header that writes the
    id (a TestID or Test ID column, or a column named ID), so a data row
    whose cell under that column is empty is never in the output,
    whatever its other cells hold. *)
Theorem required_field_gate csvContent testCases testCase :
  parseCSVToTestCases csvContent = Normal testCases ->
  testCase ∈ testCases ->
  exists s headerLine line id title,
    csvContent = VString s /\
    headerLine ∈ split "010"%char (trim s) /\
    line ∈ split "010"%char (trim s) /\
    testCase = mapRow (headersOf headerLine) (parseCSVLine line) /\
    props testCase !! "id" = Some (PStr id) /\
    id <> EmptyString /\ trim id <> EmptyString /\
    props testCase !! "title" = Some (PStr title) /\
    title <> EmptyString /\ trim title <> EmptyString /\
    (forall hs1 h hs2, headersOf headerLine = hs1 ++ h :: hs2 -> writesId h ->
       Forall (fun h' => ~ writesId h') hs2 ->
       parseCSVLine line !! length hs1 = Some id).
Proof.
  intros Hparse Hin.
  destruct (parseCSVToTestCases_elem _ _ _ Hparse Hin)
    as (s & headerLine & line & -> & Hheader & _ & Hdata & Hline).
  apply processLine_Some in Hline as (_ & Hlen & -> & Hgate).
  pose proof (wellFormed_mapRow (headersOf headerLine) line) as [Hstr Harr].
  unfold hasRequiredFields in Hgate. apply andb_true_iff in Hgate as [Hid Htitle].
  destruct (props (mapRow (headersOf headerLine) (parseCSVLine line)) !! "id")
    as [[id|a]|] eqn:Eid; [|by apply Harr in Eid|done].
  destruct (props (mapRow (headersOf headerLine) (parseCSVLine line)) !! "title")
    as [[title|a]|] eqn:Et; [|by apply Harr in Et|done].
  simpl in Hid, Htitle.
  apply negb_true_iff, bool_decide_eq_false in Hid, Htitle.
  apply Hstr in Eid as Tid. apply Hstr in Et as Tt. unfold trimmed in Tid, Tt.
  exists s, headerLine, line, id, title.
  do 10 (split; [done || congruence|]).
  intros hs1 h hs2 Hhs Hh Hhs2. rewrite Hhs in Eid, Hlen.
  rewrite (mapRow_id _ _ _ _ Hh Hhs2) in Eid.
  rewrite length_app in Hlen. simpl in Hlen.
  destruct (parseCSVLine line !! length hs1) as [v|] eqn:Ev.
  - simpl in Eid. congruence.
  - apply lookup_ge_None in Ev. lia.
Qed.

Lemma required_field_gate_witness :
  exists s headerLine line id title,
    VString e2eInput = VString s /\
    headerLine ∈ split "010"%char (trim s) /\
    line ∈ split "010"%char (trim s) /\
    e2eRecord = mapRow (headersOf headerLine) (parseCSVLine line) /\
    props e2eRecord !! "id" = Some (PStr id) /\
    id <> EmptyString /\ trim id <> EmptyString /\
    props e2eRecord !! "title" = Some (PStr title) /\
    title <> EmptyString /\ trim title <> EmptyString /\
    (forall hs1 h hs2, headersOf headerLine = hs1 ++ h :: hs2 -> writesId h ->
       Forall (fun h' => ~ writesId h') hs2 ->
       parseCSVLine line !! length hs1 = Some id).
Proof.
  apply (required_field_gate (VString e2eInput) [e2eRecord] e2eRecord).
  - vm_compute. reflexivity.
  - apply list_elem_of_here.
Defined.

(** C4 as stated fails: the tokenizer trims the field it has unquoted, so
    a string with leading white space does not come back. *)
Lemma quoting_round_trip_counterexample :
  needsQuoting " a,b" /\
  parseCSVLine (escapeCSVField (PStr " a,b")) <> [" a,b"].
Proof. split; [by left|]. vm_compute. discriminate. Qed.

(** C4, amended.  For every string [s] that contains a comma, a quote or
    a line feed, tokenizing the escaped form of [s] yields the one-element
    sequence holding [s] trimmed; it yields [s] itself exactly when [s] has
    no leading and no trailing white space. *)
Theorem quoting_round_trip s :
  needsQuoting s ->
  parseCSVLine (escapeCSVField (PStr s)) = [trim s] /\
  (parseCSVLine (escapeCSVField (PStr s)) = [s] <-> trimmed s).
Proof.
  intros _. rewrite parseCSVLine_escapeCSVField. split; [done|].
  unfold trimmed. split; [by intros [= ->]|by intros ->].
Qed.

Lemma quoting_round_trip_witness :
  parseCSVLine (escapeCSVField (PStr ("say " +:+ DQ +:+ "hi" +:+ DQ +:+ ", then go"))) =
  ["say " +:+ DQ +:+ "hi" +:+ DQ +:+ ", then go"].
Proof.
  apply (quoting_round_trip ("say " +:+ DQ +:+ "hi" +:+ DQ +:+ ", then go")).
  - right. left. reflexivity.
  - reflexivity.
Defined.

(** The steps decoding on a pipe-joined sequence: one step is kept as it
    is, several steps come back trimmed. *)
Lemma decodeSteps_join (steps : list string) :
  steps <> [] -> Forall plainStep steps ->
  decodeSteps (join "|" steps) =
  match steps with
  | [_] => steps
  | _ => trim <$> steps
  end.
Proof.
  intros Hne Hall. destruct steps as [|x [|y l]]; [done| |].
  - apply Forall_inv in Hall as [Hp Hl]. unfold decodeSteps. simpl join.
    by rewrite Hp, Hl.
  - unfold decodeSteps. rewrite includes_join_sep. f_equal.
    apply split_join; [done|]. eapply Forall_impl; [exact Hall|]. by intros s [? _].
Qed.

Lemma fmap_trim_trimmed (l : list string) : Forall trimmed l -> trim <$> l = l.
Proof.
  induction 1 as [|s l Hs Hl IH]; [done|]. rewrite fmap_cons. by rewrite Hs, IH.
Qed.

(** C5 as stated fails: the empty sequence joins to the empty string,
    which decodes to one empty step, and steps come back trimmed. *)
Lemma steps_round_trip_counterexample :
  decodeSteps (join "|" []) <> [] /\
  Forall plainStep [" a"; "b"] /\
  decodeSteps (join "|" [" a"; "b"]) <> [" a"; "b"].
Proof.
  split; [vm_compute; discriminate|]. split; [|vm_compute; discriminate].
  repeat constructor.
Qed.

(** C5, amended.  For every non-empty sequence of steps none of which
    contains a pipe or a line feed and each of which has no leading and no
    trailing white space, decoding the pipe-joined form recovers the
    sequence. *)
Theorem steps_round_trip (steps : list string) :
  steps <> [] -> Forall plainStep steps -> Forall trimmed steps ->
  decodeSteps (join "|" steps) = steps.
Proof.
  intros Hne Hplain Htrim. rewrite decodeSteps_join by done.
  destruct steps as [|x [|y l]]; [done..|]. by apply fmap_trim_trimmed.
Qed.

Lemma steps_round_trip_witness :
  decodeSteps (join "|" ["Enter user"; "Click login"; "Check the page"]) =
  ["Enter user"; "Click login"; "Check the page"].
Proof.
  apply steps_round_trip.
  - discriminate.
  - repeat constructor.
  - repeat constructor.
Defined.

(** C6 as stated fails: a row whose steps cell is empty is mapped to a
    record whose steps are one empty step, not the empty sequence. *)
Lemma empty_steps_cell_counterexample :
  exists testCase,
    parseCSVToTestCases (VString ("TestID,Title,Steps" +:+ LF +:+ "TC-1,Login,")) =
      Normal [testCase] /\
    parseCSVLine "TC-1,Login," !! 2 = Some EmptyString /\
    props testCase !! "steps" = Some (PArr [EmptyString]) /\
    props testCase !! "steps" <> Some (PArr []).
Proof.
  eexists. split; [vm_compute; reflexivity|]. split; [reflexivity|].
  split; [reflexivity|]. vm_compute. discriminate.
Qed.

(** C6, amended.  For every row whose steps cell (the cell under the last
    header that writes the steps) is the empty string, the steps field of
    the record is the one-element sequence holding the empty string. *)
Theorem empty_steps_cell hs1 h hs2 (values : list string) :
  writesSteps h -> Forall (fun h' => ~ writesSteps h') hs2 ->
  values !! length hs1 = Some EmptyString ->
  props (mapRow (hs1 ++ h :: hs2) values) !! "steps" = Some (PArr [EmptyString]).
Proof.
  intros Hh Hhs Hcell. rewrite (mapRow_steps _ _ _ _ Hh Hhs). by rewrite Hcell.
Qed.

Lemma empty_steps_cell_witness :
  props (mapRow (["TestID"; "Title"] ++ "Steps" :: ["Priority"])
                ["TC-1"; "Login"; ""; "High"]) !! "steps" =
  Some (PArr [EmptyString]).
Proof.
  apply empty_steps_cell.
  - reflexivity.
  - repeat constructor; discriminate.
  - reflexivity.
Defined.

(** C10.  Surplus-column tolerance: a data line that is not a skipped
    line and tokenizes to the header-covered values followed by surplus
    ones is handled exactly as the row of the header-covered values alone:
    the surplus is never read, and the row is kept or dropped by the
    required-field gate only. *)
Theorem surplus_columns_ignored headers line (values extra : list string) :
  skipLine line = false ->
  parseCSVLine line = values ++ extra ->
  length values = length headers ->
  extra <> [] ->
  processLine headers line =
  (if hasRequiredFields (mapRow headers values)
   then Some (mapRow headers values) else None) /\
  mapRow headers (values ++ extra) = mapRow headers values.
Proof.
  intros Hskip Hvals Hlen _.
  assert (E : mapRow headers (values ++ extra) = mapRow headers values).
  { unfold mapRow.
    rewrite <- (forEachHeader_take 0 headers (values ++ extra) _ (length values))
      by (simpl; lia).
    by rewrite take_app_length. }
  split; [|done]. unfold processLine. rewrite Hskip, Hvals, E.
  rewrite (proj2 (Nat.ltb_ge _ _)) by (rewrite length_app; lia). done.
Qed.

Lemma surplus_columns_ignored_witness :
  processLine ["TestID"; "Title"] "TC-7,Logout,High,left over" =
  Some (mapRow ["TestID"; "Title"] ["TC-7"; "Logout"]).
Proof.
  refine (proj1 (surplus_columns_ignored ["TestID"; "Title"]
                   "TC-7,Logout,High,left over"
                   ["TC-7"; "Logout"] ["High"; "left over"] _ _ _ _)).
  - reflexivity.
  - reflexivity.
  - reflexivity.
  - discriminate.
Defined.

(** C7.  The Zephyr formatter at a record the mapper builds from
    [labelsInput]: the Labels cell is the category and the type joined with
    a comma and a space, emitted as it is, where [escapeCSVField] would
    have wrapped it in quotes; the emitted row of seventeen cells reads
    back as eighteen fields. *)
Theorem zephyr_labels_cell_unescaped :
  exists testCase,
    parseCSVToTestCases (VString labelsInput) = Normal [testCase] /\
    zephyrRow testCase !! 7 = Some "Functional, Smoke" /\
    escapeCSVField (PStr "Functional, Smoke") = DQ +:+ "Functional, Smoke" +:+ DQ /\
    convertToZephyrCSV [testCase] =
      join "," zephyrHeaders +:+ LF +:+ join "," (zephyrRow testCase) /\
    length zephyrHeaders = 17 /\
    length (zephyrRow testCase) = 17 /\
    length (parseCSVLine (join "," (zephyrRow testCase))) = 18.
Proof.
  eexists. split; [vm_compute; reflexivity|].
  do 5 (split; [vm_compute; reflexivity|]). vm_compute; reflexivity.
Qed.

(** C8 as stated fails: the record mapped from [scoreInput] has the
    quality score 7.5, and without a quality report its exported cell is
    N/A. *)
Lemma quality_cell_counterexample :
  exists testCase,
    parseCSVToTestCases (VString scoreInput) = Normal [testCase] /\
    qualityScore testCase = Some (15 # 2) /\
    last (csvRow None testCase) = Some "N/A" /\
    last (csvRow None testCase) <> Some "7.5/10".
Proof.
  eexists. split; [vm_compute; reflexivity|].
  split; [reflexivity|]. split; [reflexivity|]. vm_compute. discriminate.
Qed.

Lemma handleExportCsv_props qualityReport (cases cases' : list TestCase) content :
  props <$> cases = props <$> cases' ->
  fold_left (fun content testCase =>
               content +:+ join "," (csvRow qualityReport testCase) +:+ LF)
            cases content =
  fold_left (fun content testCase =>
               content +:+ join "," (csvRow qualityReport testCase) +:+ LF)
            cases' content.
Proof.
  revert cases' content. induction cases as [|tc cases IH]; intros [|tc' cases'] content;
    try done.
  rewrite !fmap_cons. intros [= Hp Hrest]. cbn [fold_left].
  assert (E : csvRow qualityReport tc = csvRow qualityReport tc').
  { unfold csvRow, scoreFor. by rewrite Hp. }
  rewrite E. by apply IH.
Qed.

Lemma find_app_first {A} (p : A -> bool) (before after : list A) x :
  Forall (fun y => p y = false) before -> p x = true ->
  List.find p (before ++ x :: after) = Some x.
Proof.
  induction 1 as [|y before Hy _ IH]; intros Hx; simpl.
  - by rewrite Hx.
  - rewrite Hy. by apply IH.
Qed.

Lemma last_csvRow qualityReport testCase :
  last (csvRow qualityReport testCase) =
  Some (qualityCell (scoreFor qualityReport testCase)).
Proof. reflexivity. Qed.

(** C8, amended.  The Quality Score cell of the plain-CSV export is
    determined by the quality report of the application, not by the
    qualityScore field of the record: records with the same properties
    export alike whatever their qualityScore; the cell is the total score
    of the first report entry whose test id is the record's id, formatted
    with one decimal and the suffix /10, when that score is positive (and
    below 10^21, the range in which toFixed prints plain decimals); it is
    N/A when there is no report. *)
Theorem quality_cell_from_report (qualityReport : option QualityReport)
    (generatedCases : list TestCase) :
  (forall cases', props <$> generatedCases = props <$> cases' ->
     handleExportCsv qualityReport generatedCases = handleExportCsv qualityReport cases') /\
  (forall testCase before entry after score,
     qualityReport = Some (mkQualityReport (Some (before ++ entry :: after))) ->
     Forall (fun e => strictEqualsId (test_id e) (props testCase !! "id") = false) before ->
     strictEqualsId (test_id entry) (props testCase !! "id") = true ->
     total_score entry = Some score ->
     (0 < score)%Q -> (score < 1000000000000000000000)%Q ->
     last (csvRow qualityReport testCase) = Some (toFixed1 score +:+ "/10")) /\
  (forall testCase, qualityReport = None ->
     last (csvRow qualityReport testCase) = Some "N/A").
Proof.
  split; [|split].
  - intros cases' Hp. unfold handleExportCsv. by apply handleExportCsv_props.
  - intros testCase before entry after score -> Hbefore Hentry Hscore Hpos _.
    rewrite last_csvRow. f_equal.
    unfold scoreFor. cbn [individual_scores].
    rewrite (find_app_first _ _ _ _ Hbefore Hentry), Hscore. cbn [default from_option].
    unfold qualityCell, id. destruct (Qlt_le_dec 0 score) as [_|Hle]; [reflexivity|].
    exfalso. by apply Qle_not_lt in Hle.
  - intros testCase ->. reflexivity.
Qed.

Lemma quality_cell_from_report_witness :
  last (csvRow (Some (mkQualityReport (Some
          [ mkScoreEntry (IdString "TC-000") (Some (9 # 1));
            mkScoreEntry (IdString "TC-001") (Some (29 # 4)) ])))
        e2eRecord) = Some "7.3/10".
Proof.
  refine (proj1 (proj2 (quality_cell_from_report _ []))
            e2eRecord [mkScoreEntry (IdString "TC-000") (Some (9 # 1))]
            (mkScoreEntry (IdString "TC-001") (Some (29 # 4))) [] (29 # 4)
            eq_refl _ eq_refl eq_refl eq_refl eq_refl).
  repeat constructor.
Defined.

(** C9.  The header line of [quotedHeaderInput]: the mapper splits it at
    every comma, also the comma inside the quoted third name, and gets four
    column names where the line tokenizer gets three; the data line, three
    cells long, is then dropped as incomplete and the mapper returns no
    record, whereas under the tokenizer's column names the row is kept. *)
Theorem header_split_ignores_quotes :
  headersOf quotedHeaderLine = ["Test ID"; "Title"; "Steps"; "ordered"] /\
  parseCSVLine quotedHeaderLine = ["Test ID"; "Title"; "Steps, ordered"] /\
  parseCSVLine quotedDataLine = ["TC-1"; "Login"; "a|b"] /\
  parseCSVToTestCases (VString quotedHeaderInput) = Normal [] /\
  is_Some (processLine (parseCSVLine quotedHeaderLine) quotedDataLine).
Proof.
  do 4 (split; [vm_compute; reflexivity|]). vm_compute. eauto.
Qed.

(** * Further properties of the code *)

(** ** The tokenizer on whole rows *)

Module RowFacts.
Import Js JsFacts CsvParser ZephyrExporter TokenizerFacts.

Lemma parseCSVLineLoop_escaped rest current result :
  parseCSVLineLoop (String "034" (String "034" rest)) true current result =
  parseCSVLineLoop rest true (current +:+ DQ) result.
Proof. reflexivity. Qed.

(** A quote that is not followed by a quote toggles the state. *)
Lemma parseCSVLineLoop_toggle rest inQuotes current result :
  startsWith DQ rest = false ->
  parseCSVLineLoop (String "034" rest) inQuotes current result =
  parseCSVLineLoop rest (negb inQuotes) current result.
Proof.
  intros Hrest. rewrite parseCSVLineLoop_cons. simpl decide. cbv iota.
  destruct inQuotes; [|done]. destruct rest as [|c rest]; [done|].
  destruct c as [[] [] [] [] [] [] [] []]; try done.
Qed.

Lemma parseCSVLineLoop_open_quote rest current result :
  parseCSVLineLoop (String "034" rest) false current result =
  parseCSVLineLoop rest true current result.
Proof. reflexivity. Qed.

Lemma parseCSVLineLoop_comma rest current result :
  parseCSVLineLoop (String "," rest) false current result =
  parseCSVLineLoop rest false EmptyString (result ++ [trim current]).
Proof. reflexivity. Qed.

Lemma parseCSVLineLoop_plain_then s t current result :
  includes "," s = false -> quoteFree s ->
  parseCSVLineLoop (s +:+ t) false current result =
  parseCSVLineLoop t false (current +:+ s) result.
Proof.
  unfold quoteFree, DQ. revert current. induction s as [|c s IH]; intros current.
  - intros _ _. by rewrite append_empty_l, append_empty_r.
  - rewrite !includes_char_cons.
    intros [Hc1 Hs1]%orb_false_elim [Hc2 Hs2]%orb_false_elim.
    apply bool_decide_eq_false in Hc1, Hc2.
    rewrite append_cons, parseCSVLineLoop_cons.
    destruct (decide (c = "034"%char)); [congruence|].
    rewrite bool_decide_eq_false_2 by congruence. simpl andb.
    rewrite IH by done. by rewrite append_snoc.
Qed.

Lemma parseCSVLineLoop_quoted_then s t current result :
  startsWith DQ t = false ->
  parseCSVLineLoop (replaceQuotes (DQ +:+ DQ) s +:+ DQ +:+ t) true current result =
  parseCSVLineLoop t false (current +:+ s) result.
Proof.
  intros Ht. revert current. induction s as [|c s IH]; intros current.
  - rewrite append_empty_r. simpl replaceQuotes. rewrite append_empty_l.
    change (DQ +:+ t) with (String "034" t).
    by rewrite parseCSVLineLoop_toggle.
  - simpl replaceQuotes. destruct (decide (c = "034"%char)) as [->|Hc].
    + change (((DQ +:+ DQ) +:+ replaceQuotes (DQ +:+ DQ) s) +:+ DQ +:+ t)
        with (String "034" (String "034" (replaceQuotes (DQ +:+ DQ) s +:+ DQ +:+ t))).
      rewrite parseCSVLineLoop_escaped, IH. by rewrite append_assoc.
    + rewrite append_cons, parseCSVLineLoop_cons.
      destruct (decide (c = "034"%char)); [done|].
      rewrite andb_false_r, IH. by rewrite append_snoc.
Qed.

(** Inside a quoted span that is never closed, everything up to the end
    of the line is copied, commas included. *)
Lemma parseCSVLineLoop_open s current result :
  quoteFree s ->
  parseCSVLineLoop s true current result = result ++ [trim (current +:+ s)].
Proof.
  unfold quoteFree, DQ. revert current. induction s as [|c s IH]; intros current.
  - intros _. by rewrite append_empty_r.
  - rewrite includes_char_cons. intros [Hc Hs]%orb_false_elim.
    apply bool_decide_eq_false in Hc. rewrite parseCSVLineLoop_cons.
    destruct (decide (c = "034"%char)); [congruence|].
    rewrite andb_false_r, IH by done. by rewrite append_snoc.
Qed.

(** One encoded field, followed by the end of the line or by a comma. *)
Lemma parseCSVLineLoop_field raw s t result :
  fieldEncodes raw s -> startsWith DQ t = false ->
  parseCSVLineLoop (raw +:+ t) false EmptyString result =
  parseCSVLineLoop t false s result.
Proof.
  intros [[-> [Hc Hq]] | ->] Ht.
  - by rewrite parseCSVLineLoop_plain_then.
  - rewrite append_assoc.
    change (DQ +:+ (replaceQuotes (DQ +:+ DQ) s +:+ DQ) +:+ t)
      with (String "034" ((replaceQuotes (DQ +:+ DQ) s +:+ DQ) +:+ t)).
    rewrite parseCSVLineLoop_open_quote, append_assoc.
    by rewrite parseCSVLineLoop_quoted_then.
Qed.

Lemma parseCSVLineLoop_fields (raws ss : list string) result :
  Forall2 fieldEncodes raws ss -> raws <> [] ->
  parseCSVLineLoop (join "," raws) false EmptyString result =
  result ++ (trim <$> ss).
Proof.
  intros Hall. revert result.
  induction Hall as [|raw s raws ss Hf Hall IH]; intros result Hne; [done|].
  destruct Hall as [|raw2 s2 raws ss Hf2 Hall].
  - simpl join. rewrite <- (append_empty_r raw).
    by rewrite (parseCSVLineLoop_field _ _ _ _ Hf).
  - rewrite join_cons_cons.
    rewrite (parseCSVLineLoop_field _ _ _ _ Hf) by done.
    change ("," +:+ join "," (raw2 :: raws)) with (String "," (join "," (raw2 :: raws))).
    rewrite parseCSVLineLoop_comma, IH by done.
    by rewrite <- app_assoc.
Qed.

Lemma fieldEncodes_escapeCSVField s : fieldEncodes (escapeCSVField (PStr s)) s.
Proof.
  unfold escapeCSVField. simpl truthyProp. rewrite negb_involutive.
  case_bool_decide as Hs; [subst; by left|]. simpl propToString.
  destruct (includes "," s || includes LF s || includes DQ s) eqn:Hq; [by right|].
  apply orb_false_elim in Hq as [[H1 _]%orb_false_elim H3]. by left.
Qed.

(** *** split and join, the other way round *)

Lemma split_cons_inv sep s : exists h t, split sep s = h :: t.
Proof.
  induction s as [|c s (h & t & IH)]; simpl; [eauto|].
  destruct (decide (c = sep)); [eauto|]. rewrite IH. eauto.
Qed.

Lemma join_split sep s : join (String sep EmptyString) (split sep s) = s.
Proof.
  induction s as [|c s IH]; [done|]. simpl split.
  destruct (decide (c = sep)) as [->|Hc].
  - destruct (split_cons_inv sep s) as (h & t & E). rewrite E in *.
    rewrite join_cons_cons, append_empty_l, IH. done.
  - destruct (split sep s) as [|h [|h2 t]] eqn:E.
    + destruct (split_cons_inv sep s) as (? & ? & E'). congruence.
    + simpl in *. by subst.
    + rewrite join_cons_cons in *. rewrite append_cons. by rewrite IH.
Qed.

(** A code unit absent from a string is absent from its pieces. *)
Lemma split_pieces_without c sep s :
  includes (String c EmptyString) s = false ->
  Forall (fun piece => includes (String c EmptyString) piece = false) (split sep s).
Proof.
  induction s as [|d s IH]; [by repeat constructor|].
  rewrite includes_char_cons. intros [Hd Hs]%orb_false_elim. simpl split.
  specialize (IH Hs). destruct (decide (d = sep)); [by constructor|].
  destruct IH as [|h t Hh Ht]; constructor; try done.
  - by rewrite includes_char_cons, Hd.
  - by rewrite includes_char_cons, Hd.
Qed.

Lemma split_pieces_no_sep sep s :
  Forall (fun piece => includes (String sep EmptyString) piece = false) (split sep s).
Proof.
  induction s as [|d s IH]; [by repeat constructor|]. simpl split.
  destruct (decide (d = sep)) as [->|Hd]; [by constructor|].
  destruct IH as [|h t Hh Ht]; constructor; try done.
  - rewrite includes_char_cons, bool_decide_eq_false_2; [done|congruence].
  - rewrite includes_char_cons, Hh, bool_decide_eq_false_2; [done|congruence].
Qed.

End RowFacts.

(** ** White space at the ends, and the carriage return *)

Module TrimFacts.
Import Js JsFacts CsvParser TokenizerFacts RowFacts.

Lemma trimStart_without c s :
  includes (String c EmptyString) s = false ->
  includes (String c EmptyString) (trimStart s) = false.
Proof.
  induction s as [|d s IH]; [done|]. intros H. simpl.
  destruct (isWhiteSpace d); [|done]. apply IH.
  rewrite includes_char_cons in H. by apply orb_false_elim in H as [_ H].
Qed.

Lemma trimEnd_without c s :
  includes (String c EmptyString) s = false ->
  includes (String c EmptyString) (trimEnd s) = false.
Proof.
  induction s as [|d s IH]; [done|]. rewrite includes_char_cons.
  intros [Hd Hs]%orb_false_elim. specialize (IH Hs). rewrite trimEnd_cons.
  destruct (trimEnd s) as [|e t].
  - destruct (isWhiteSpace d); [done|]. by rewrite includes_char_cons, Hd.
  - by rewrite includes_char_cons, Hd.
Qed.

Lemma trim_without c s :
  includes (String c EmptyString) s = false ->
  includes (String c EmptyString) (trim s) = false.
Proof. intros H. by apply trimEnd_without, trimStart_without. Qed.

Lemma replaceQuotes_quoteFree rep s : quoteFree s -> replaceQuotes rep s = s.
Proof.
  unfold quoteFree, DQ. induction s as [|c s IH]; [done|].
  rewrite includes_char_cons. intros [Hc Hs]%orb_false_elim.
  apply bool_decide_eq_false in Hc. simpl.
  destruct (decide (c = "034"%char)); [congruence|]. by rewrite IH.
Qed.

Lemma cleanHeader_quoteFree h : quoteFree h -> cleanHeader h = trim h.
Proof. intros H. apply replaceQuotes_quoteFree. by apply trim_without. Qed.

Lemma trimEnd_snoc s w :
  isWhiteSpace w = true -> trimEnd (s +:+ String w EmptyString) = trimEnd s.
Proof.
  intros Hw. induction s as [|c s IH].
  - rewrite append_empty_l. simpl. by rewrite Hw.
  - by rewrite append_cons, !trimEnd_cons, IH.
Qed.

Lemma trim_snoc s w :
  isWhiteSpace w = true -> trim (s +:+ String w EmptyString) = trim s.
Proof.
  intros Hw. unfold trim. induction s as [|c s IH].
  - rewrite append_empty_l. simpl. by rewrite Hw.
  - rewrite append_cons. simpl trimStart. destruct (isWhiteSpace c); [done|].
    rewrite <- append_cons. by apply trimEnd_snoc.
Qed.

Lemma trim_append_CR s current : trim (current +:+ s +:+ CR) = trim (current +:+ s).
Proof. rewrite <- append_assoc. by apply trim_snoc. Qed.

(** A final carriage return ends up in the last field, where [trim]
    removes it. *)
Lemma parseCSVLineLoop_CR line inQuotes current result :
  parseCSVLineLoop (line +:+ CR) inQuotes current result =
  parseCSVLineLoop line inQuotes current result.
Proof.
  revert inQuotes current result.
  induction line as [line IH] using (well_founded_induction
    (well_founded_ltof _ String.length)).
  intros inQuotes current result. destruct line as [|c rest].
  - rewrite append_empty_l. unfold CR. rewrite parseCSVLineLoop_cons.
    simpl. f_equal. f_equal. by apply trim_snoc.
  - rewrite append_cons, !parseCSVLineLoop_cons.
    assert (Hrest : forall iq cur res,
              parseCSVLineLoop (rest +:+ CR) iq cur res =
              parseCSVLineLoop rest iq cur res).
    { intros. apply IH. unfold ltof. simpl. lia. }
    destruct (decide (c = "034"%char)).
    + destruct inQuotes; [|by apply Hrest].
      destruct rest as [|d rest']; [by apply Hrest|].
      rewrite append_cons.
      destruct d as [[] [] [] [] [] [] [] []];
        try (rewrite <- append_cons; by apply Hrest).
      apply IH. unfold ltof. simpl. lia.
    + destruct (bool_decide (c = ","%char) && negb inQuotes); by apply Hrest.
Qed.

Lemma split_snoc sep c s :
  c <> sep ->
  exists init last,
    split sep s = init ++ [last] /\
    split sep (s +:+ String c EmptyString) = init ++ [last +:+ String c EmptyString].
Proof.
  intros Hc. induction s as [|d s (init & last & E1 & E2)].
  - exists [], EmptyString. split; [done|]. rewrite append_empty_l. simpl.
    by destruct (decide (c = sep)).
  - rewrite append_cons. simpl split. rewrite E1, E2.
    destruct (decide (d = sep)).
    + by exists (EmptyString :: init), last.
    + destruct init as [|i init]; simpl.
      * by exists [], (String d last).
      * by exists (String d i :: init), last.
Qed.

Lemma startsWith_snoc needle s c :
  needle <> EmptyString ->
  includes (String c EmptyString) needle = false ->
  startsWith needle (s +:+ String c EmptyString) = startsWith needle s.
Proof.
  revert s. induction needle as [|a needle IH]; intros s Hne Hc; [done|].
  rewrite includes_char_cons in Hc. apply orb_false_elim in Hc as [Ha Hc].
  apply bool_decide_eq_false in Ha.
  destruct s as [|b s].
  - rewrite append_empty_l. simpl. rewrite bool_decide_eq_false_2; [done|congruence].
  - rewrite append_cons. simpl. destruct needle as [|a' needle]; [done|].
    by rewrite IH.
Qed.

Lemma includes_snoc needle s c :
  needle <> EmptyString ->
  includes (String c EmptyString) needle = false ->
  includes needle (s +:+ String c EmptyString) = includes needle s.
Proof.
  intros Hne Hc. induction s as [|b s IH].
  - rewrite append_empty_l. destruct needle as [|a needle]; [done|].
    rewrite includes_char_cons in Hc. apply orb_false_elim in Hc as [Ha Hc].
    apply bool_decide_eq_false in Ha. simpl.
    rewrite bool_decide_eq_false_2; [done|congruence].
  - rewrite append_cons. cbn [includes]. rewrite IH. f_equal.
    rewrite <- append_cons. by apply startsWith_snoc.
Qed.

Lemma toLowerCase_app s t : toLowerCase (s +:+ t) = toLowerCase s +:+ toLowerCase t.
Proof.
  induction s as [|c s IH]; [done|]. rewrite append_cons. simpl.
  by rewrite IH, append_cons.
Qed.

Lemma parseCSVLine_split line :
  quoteFree line -> parseCSVLine line = trim <$> split ","%char line.
Proof.
  intros Hq. rewrite <- (join_split ","%char line) at 1. unfold parseCSVLine.
  rewrite (parseCSVLineLoop_fields _ (split ","%char line)); [done| |].
  - pose proof (split_pieces_no_sep ","%char line) as Hc.
    pose proof (split_pieces_without _ ","%char line Hq) as Hd.
    induction Hc as [|p ps Hp Hps IH]; [constructor|].
    apply Forall_cons in Hd as [Hd Hds]. constructor; [by left|by apply IH].
  - by destruct (split_cons_inv ","%char line) as (h & t & ->).
Qed.

End TrimFacts.

Import RowFacts TrimFacts.

(** X1.  Row round trip: a non-empty sequence of fields, each escaped and
    the results joined with commas, is tokenized back into the same
    fields, each trimmed. *)
Theorem row_round_trip (fields : list string) :
  fields <> [] ->
  parseCSVLine (join "," ((fun f => escapeCSVField (PStr f)) <$> fields)) =
  trim <$> fields.
Proof.
  intros Hne. unfold parseCSVLine.
  rewrite (parseCSVLineLoop_fields _ fields); [done| |by destruct fields].
  clear Hne. induction fields as [|f fields IH]; constructor; [|done].
  apply fieldEncodes_escapeCSVField.
Qed.

Lemma row_round_trip_witness :
  parseCSVLine (join "," ((fun f => escapeCSVField (PStr f)) <$>
                  ["TC-9"; "Search, then " +:+ DQ +:+ "open" +:+ DQ; ""; " padded "])) =
  ["TC-9"; "Search, then " +:+ DQ +:+ "open" +:+ DQ; ""; "padded"].
Proof.
  apply (row_round_trip
           ["TC-9"; "Search, then " +:+ DQ +:+ "open" +:+ DQ; ""; " padded "]).
  discriminate.
Defined.

(** X2.  On a line without any double quote the tokenizer is plain
    splitting: the line split at its commas, each piece trimmed. *)
Theorem parseCSVLine_quoteFree line :
  quoteFree line -> parseCSVLine line = trim <$> split ","%char line.
Proof. apply parseCSVLine_split. Qed.

Lemma parseCSVLine_quoteFree_witness :
  parseCSVLine "TC-2, Reset password ,,Medium" =
  trim <$> split ","%char "TC-2, Reset password ,,Medium".
Proof. apply parseCSVLine_quoteFree. reflexivity. Defined.

(** X3.  On a header line without any double quote the column names of
    the mapper are the fields the tokenizer would return, so header and
    data lines are split alike there. *)
Theorem headersOf_quoteFree headerLine :
  quoteFree headerLine -> headersOf headerLine = parseCSVLine headerLine.
Proof.
  intros Hq. rewrite parseCSVLine_split by done. unfold headersOf.
  pose proof (split_pieces_without _ ","%char headerLine Hq) as Hd.
  induction Hd as [|p ps Hp Hps IH]; [done|].
  rewrite !fmap_cons, IH. f_equal. by apply cleanHeader_quoteFree.
Qed.

Lemma headersOf_quoteFree_witness :
  headersOf "TestID, Title ,Steps,Expected Result" =
  parseCSVLine "TestID, Title ,Steps,Expected Result".
Proof. apply headersOf_quoteFree. reflexivity. Defined.

(** X4.  Malformed quoting: after an opening quote that is never closed,
    the rest of the line is one field, commas included; nothing is
    raised. *)
Theorem unterminated_quote before rest :
  includes "," before = false -> quoteFree before -> quoteFree rest ->
  parseCSVLine (before +:+ DQ +:+ rest) = [trim (before +:+ rest)].
Proof.
  intros Hc Hb Hr. unfold parseCSVLine.
  rewrite parseCSVLineLoop_plain_then by done.
  change (DQ +:+ rest) with (String "034" rest).
  rewrite parseCSVLineLoop_open_quote. by rewrite parseCSVLineLoop_open.
Qed.

Lemma unterminated_quote_witness :
  parseCSVLine ("note " +:+ DQ +:+ "a, b, c") = ["note a, b, c"].
Proof.
  apply (unterminated_quote "note " "a, b, c"); reflexivity.
Defined.

(** X5.  Windows line endings: the carriage return left at the end of a
    line by splitting at line feeds changes neither whether the line is a
    header line, nor the column names read from it, nor the record (or the
    absence of a record) a data line gives. *)
Theorem carriage_return_ignored headers line :
  isHeaderLine (line +:+ CR) = isHeaderLine line /\
  headersOf (line +:+ CR) = headersOf line /\
  processLine headers (line +:+ CR) = processLine headers line.
Proof.
  split; [|split].
  - unfold isHeaderLine. rewrite toLowerCase_app.
    change (toLowerCase CR) with CR. unfold CR. by rewrite !includes_snoc.
  - unfold headersOf, CR.
    destruct (split_snoc ","%char "013"%char line) as (init & last & -> & ->); [done|].
    rewrite !fmap_app. f_equal. simpl. f_equal. unfold cleanHeader.
    by rewrite trim_snoc.
  - unfold processLine, skipLine, parseCSVLine.
    rewrite parseCSVLineLoop_CR. unfold CR.
    rewrite trim_snoc by done. by rewrite startsWith_snoc, includes_snoc.
Qed.

(** ** The mapper on whole inputs *)

Module InputFacts.
Import Js JsFacts CsvParser TokenizerFacts MapperFacts.

Lemma findIndex_app_first {A} (p : A -> bool) (before after : list A) x :
  Forall (fun y => p y = false) before -> p x = true ->
  findIndex p (before ++ x :: after) = Some (length before).
Proof.
  induction 1 as [|y before Hy _ IH]; intros Hx; simpl.
  - by rewrite Hx.
  - by rewrite Hy, (IH Hx).
Qed.

Lemma length_omap_le {A B} (f : A -> option B) (l : list A) :
  length (omap f l) <= length l.
Proof.
  induction l as [|x l IH]; csimpl; [lia|]. destruct (f x); csimpl; lia.
Qed.

(** The mapper on a string, with the [try] block unfolded. *)
Lemma parseCSVToTestCases_string s :
  parseCSVToTestCases (VString s) =
  let lines := split "010"%char (trim s) in
  match findIndex isHeaderLine lines with
  | None => Normal []
  | Some headerIndex =>
      match lines !! headerIndex with
      | Some headerLine =>
          Normal (omap (processLine (headersOf headerLine))
                       (drop (headerIndex + 1) lines))
      | None => Normal []
      end
  end.
Proof.
  unfold parseCSVToTestCases. simpl truthy. rewrite negb_involutive.
  case_bool_decide as Hs.
  - subst. reflexivity.
  - simpl. destruct (findIndex _ _) as [i|]; [|done]. simpl.
    unfold headersAt. by destruct (_ !! i).
Qed.

End InputFacts.

Import InputFacts.

(** X6.  Header tolerance: the lines before the first header line are
    ignored, whatever they hold, and the result is made of the records of
    the lines after it, taken in order, under the column names of that
    header line. *)
Theorem header_tolerance s (banner data : list string) headerLine :
  split "010"%char (trim s) = banner ++ headerLine :: data ->
  Forall (fun line => isHeaderLine line = false) banner ->
  isHeaderLine headerLine = true ->
  parseCSVToTestCases (VString s) =
  Normal (omap (processLine (headersOf headerLine)) data).
Proof.
  intros Hlines Hbanner Hheader. rewrite parseCSVToTestCases_string. cbv zeta.
  rewrite Hlines, (findIndex_app_first _ _ _ _ Hbanner Hheader).
  rewrite list_lookup_middle by done.
  rewrite cons_middle, app_assoc.
  replace (length banner + 1) with (length (banner ++ [headerLine]))
    by (rewrite length_app; simpl; lia).
  by rewrite drop_app_length.
Qed.

Lemma header_tolerance_witness :
  parseCSVToTestCases
    (VString ("Generated by the tool" +:+ LF +:+ LF +:+ "TestID,Title" +:+ LF +:+
              "TC-1,Login" +:+ LF +:+ "--- end of cases" +:+ LF +:+ "TC-2,Logout")) =
  Normal (omap (processLine (headersOf "TestID,Title"))
               ["TC-1,Login"; "--- end of cases"; "TC-2,Logout"]).
Proof.
  apply (header_tolerance _ ["Generated by the tool"; ""]
           ["TC-1,Login"; "--- end of cases"; "TC-2,Logout"] "TestID,Title").
  - reflexivity.
  - repeat constructor.
  - reflexivity.
Defined.

(** X7.  The mapper returns at most one record per line after the header
    line: on a string, fewer records than the trimmed input has lines,
    unless it returns none. *)
Theorem record_count_bound s testCases :
  parseCSVToTestCases (VString s) = Normal testCases ->
  testCases = [] \/ length testCases < length (split "010"%char (trim s)).
Proof.
  rewrite parseCSVToTestCases_string. cbv zeta.
  destruct (findIndex _ _) as [i|] eqn:Ei; [|intros [= <-]; by left].
  apply findIndex_Some in Ei as (headerLine & Hi & _). rewrite Hi.
  intros [= <-]. right.
  pose proof (length_omap_le (processLine (headersOf headerLine))
                (drop (i + 1) (split "010"%char (trim s)))) as Hle.
  rewrite length_drop in Hle. apply lookup_lt_Some in Hi. lia.
Qed.

Lemma record_count_bound_witness :
  [e2eRecord] = [] \/ length [e2eRecord] < length (split "010"%char (trim e2eInput)).
Proof.
  apply (record_count_bound e2eInput [e2eRecord]). vm_compute. reflexivity.
Defined.

(** X8.  Only the trimmed content matters: two strings with the same
    trimmed form give the same result; in particular white space and empty
    lines before and after the text change nothing. *)
Theorem surrounding_space_ignored s1 s2 :
  trim s1 = trim s2 ->
  parseCSVToTestCases (VString s1) = parseCSVToTestCases (VString s2).
Proof. intros H. by rewrite !parseCSVToTestCases_string, H. Qed.

Lemma surrounding_space_ignored_witness :
  parseCSVToTestCases (VString (LF +:+ "  " +:+ e2eInput +:+ LF +:+ LF)) =
  parseCSVToTestCases (VString e2eInput).
Proof. apply surrounding_space_ignored. vm_compute. reflexivity. Defined.

(** ** Defaults and property names *)

Module KeyFacts.
Import Js JsFacts CsvParser ZephyrExporter TokenizerFacts MapperFacts.

Lemma defaultOf_cases key fallback :
  defaultOf key = Some fallback ->
  (key = "priority" /\ fallback = "Medium") \/
  (key = "category" /\ fallback = "Functional") \/
  (key = "type" /\ fallback = "Smoke").
Proof. unfold defaultOf. repeat case_decide; naive_solver. Qed.

Lemma keyOf_default key fallback header :
  defaultOf key = Some fallback -> keyOf header = Some key ->
  toLowerCase header = key.
Proof.
  intros Hd%defaultOf_cases. unfold keyOf.
  repeat case_decide; intros [= E];
    try (destruct Hd as [[-> _]|[[-> _]|[-> _]]]; done);
    destruct Hd as [[-> _]|[[-> _]|[-> _]]];
    by apply replaceSpaceRuns_no_underscore in E.
Qed.

Lemma assignField_default key fallback header value testCase :
  defaultOf key = Some fallback -> toLowerCase header = key ->
  props (assignField header value testCase) !! key =
  Some (PStr (orDefault value fallback)).
Proof.
  intros Hd%defaultOf_cases Hh. unfold assignField. rewrite Hh.
  destruct Hd as [[-> ->]|[[-> ->]|[-> ->]]];
    repeat first [ rewrite decide_False by (intros [?|?]; discriminate)
                 | rewrite decide_False by discriminate ];
    rewrite decide_True by done; by apply lookup_setProp_eq.
Qed.

Lemma orDefault_nonempty value fallback :
  fallback <> EmptyString -> orDefault value fallback <> EmptyString.
Proof. unfold orDefault. by case_decide. Qed.

Lemma defaultOf_nonempty key fallback :
  defaultOf key = Some fallback -> fallback <> EmptyString.
Proof. intros [[_ ->]|[[_ ->]|[_ ->]]]%defaultOf_cases; done. Qed.

(** A defaulted property is never the empty string. *)
Lemma forEachHeader_default_nonempty key fallback index headers values testCase :
  defaultOf key = Some fallback ->
  props testCase !! key <> Some (PStr EmptyString) ->
  props (forEachHeader index headers values testCase) !! key <> Some (PStr EmptyString).
Proof.
  intros Hd. revert index testCase.
  induction headers as [|h hs IH]; intros index testCase Hne; [done|].
  simpl. apply IH.
  destruct (decide (keyOf h = Some key)) as [Hk|Hk].
  - rewrite (assignField_default _ _ _ _ _ Hd (keyOf_default _ _ _ Hd Hk)).
    intros [= E]. by eapply orDefault_nonempty, E; eapply defaultOf_nonempty.
  - by rewrite assignField_other.
Qed.

(** *** Lower case *)

Lemma lowerChar_idempotent c : lowerChar (lowerChar c) = lowerChar c.
Proof. destruct c as [[] [] [] [] [] [] [] []]; reflexivity. Qed.

Lemma toLowerCase_idempotent s : toLowerCase (toLowerCase s) = toLowerCase s.
Proof.
  induction s as [|c s IH]; [done|]. simpl. by rewrite lowerChar_idempotent, IH.
Qed.

Lemma toLowerCase_replaceSpaceRunsFrom inRun s :
  toLowerCase s = s ->
  toLowerCase (replaceSpaceRunsFrom inRun s) = replaceSpaceRunsFrom inRun s.
Proof.
  revert inRun. induction s as [|c s IH]; intros inRun; [done|].
  simpl. intros [= Hc Hs].
  destruct (isWhiteSpace c), inRun; simpl; rewrite ?Hc, IH; done.
Qed.

(** Every property name written by [assignField] is in lower case. *)
Lemma keyOf_lowerCase header key :
  keyOf header = Some key -> toLowerCase key = key.
Proof.
  unfold keyOf. repeat case_decide; intros [= <-]; try reflexivity.
  apply toLowerCase_replaceSpaceRunsFrom, toLowerCase_idempotent.
Qed.

Lemma forEachHeader_lowerCase index headers values testCase :
  (forall k, is_Some (props testCase !! k) -> toLowerCase k = k) ->
  forall k, is_Some (props (forEachHeader index headers values testCase) !! k) ->
            toLowerCase k = k.
Proof.
  revert index testCase.
  induction headers as [|h hs IH]; intros index testCase Hlow; [done|].
  simpl. apply IH. intros k Hk.
  destruct (decide (keyOf h = Some k)) as [E|E].
  - by eapply keyOf_lowerCase.
  - rewrite assignField_other in Hk by done. by apply Hlow.
Qed.

End KeyFacts.

Import KeyFacts.

(** X9.  Defaulted columns: under a priority, category or type column the
    record holds the cell, or the fallback (Medium, Functional, Smoke) when
    the cell is empty; the cell is the one under the last such column. *)
Theorem default_columns key fallback hs1 h hs2 (values : list string) :
  defaultOf key = Some fallback ->
  toLowerCase h = key ->
  Forall (fun h' => toLowerCase h' <> key) hs2 ->
  props (mapRow (hs1 ++ h :: hs2) values) !! key =
  Some (PStr (let cell := default EmptyString (values !! length hs1) in
              if decide (cell = EmptyString) then fallback else cell)).
Proof.
  intros Hd Hh Hhs. unfold mapRow. rewrite forEachHeader_app. simpl.
  rewrite forEachHeader_other.
  - by apply (assignField_default _ _ _ _ _ Hd Hh).
  - eapply Forall_impl; [exact Hhs|]. intros h' Hn E.
    by apply Hn, (keyOf_default _ _ _ Hd E).
Qed.

Lemma default_columns_witness :
  props (mapRow (["TestID"; "Title"] ++ "Category" :: ["Priority"])
                ["TC-1"; "Login"; ""; "High"]) !! "category" =
  Some (PStr "Functional").
Proof.
  apply (default_columns "category" "Functional" ["TestID"; "Title"] "Category"
           ["Priority"] ["TC-1"; "Login"; ""; "High"]).
  - reflexivity.
  - reflexivity.
  - repeat constructor. discriminate.
Defined.

(** X10.  In every record the mapper returns, priority, category and type
    are each either absent (no such column) or a non-empty trimmed string:
    an empty cell never gets through. *)
Theorem defaulted_never_empty csvContent testCases testCase key fallback :
  parseCSVToTestCases csvContent = Normal testCases ->
  testCase ∈ testCases ->
  defaultOf key = Some fallback ->
  props testCase !! key = None \/
  exists v, props testCase !! key = Some (PStr v) /\ v <> EmptyString /\ trimmed v.
Proof.
  intros Hparse Hin Hd.
  destruct (parseCSVToTestCases_elem _ _ _ Hparse Hin)
    as (s & headerLine & line & _ & _ & _ & _ & Hline).
  apply processLine_Some in Hline as (_ & _ & -> & _).
  pose proof (wellFormed_mapRow (headersOf headerLine) line) as [Hstr Harr].
  pose proof (forEachHeader_default_nonempty key fallback 0 (headersOf headerLine)
                (parseCSVLine line) emptyTestCase Hd) as Hne.
  fold (mapRow (headersOf headerLine) (parseCSVLine line)) in Hne.
  destruct (props (mapRow (headersOf headerLine) (parseCSVLine line)) !! key)
    as [[v|a]|] eqn:E; [right|exfalso|by left].
  - exists v. split; [done|]. split; [|by eapply Hstr].
    intros ->. by apply Hne.
  - apply Harr in E. subst.
    by destruct (defaultOf_cases _ _ Hd) as [[? _]|[[? _]|[? _]]].
Qed.

Lemma defaulted_never_empty_witness :
  props e2eRecord !! "priority" = None \/
  exists v, props e2eRecord !! "priority" = Some (PStr v) /\
            v <> EmptyString /\ trimmed v.
Proof.
  apply (defaulted_never_empty (VString e2eInput) [e2eRecord] e2eRecord
           "priority" "Medium").
  - vm_compute. reflexivity.
  - apply list_elem_of_here.
  - reflexivity.
Defined.

(** X11.  Every property name of a record the mapper returns is in lower
    case; so [testData], which the Zephyr formatter reads, is never set,
    and the Test Data cell of the Zephyr row of such a record is empty. *)
Theorem property_names_lower_case csvContent testCases testCase :
  parseCSVToTestCases csvContent = Normal testCases ->
  testCase ∈ testCases ->
  (forall k, is_Some (props testCase !! k) -> toLowerCase k = k) /\
  props testCase !! "testData" = None /\
  zephyrRow testCase !! 13 = Some EmptyString.
Proof.
  intros Hparse Hin.
  destruct (parseCSVToTestCases_elem _ _ _ Hparse Hin)
    as (s & headerLine & line & _ & _ & _ & _ & Hline).
  apply processLine_Some in Hline as (_ & _ & -> & _).
  assert (Hlow : forall k,
            is_Some (props (mapRow (headersOf headerLine) (parseCSVLine line)) !! k) ->
            toLowerCase k = k).
  { apply forEachHeader_lowerCase. intros k [x Hx]. simpl in Hx.
    by rewrite lookup_empty in Hx. }
  assert (Hnone : props (mapRow (headersOf headerLine) (parseCSVLine line))
                    !! "testData" = None).
  { destruct (_ !! "testData") eqn:E; [|done].
    by specialize (Hlow "testData" (mk_is_Some _ _ E)). }
  split; [done|]. split; [done|].
  unfold zephyrRow. cbn [lookup list_lookup]. by rewrite Hnone.
Qed.

Lemma property_names_lower_case_witness :
  (forall k, is_Some (props e2eRecord !! k) -> toLowerCase k = k) /\
  props e2eRecord !! "testData" = None /\
  zephyrRow e2eRecord !! 13 = Some EmptyString.
Proof.
  apply (property_names_lower_case (VString e2eInput) [e2eRecord] e2eRecord).
  - vm_compute. reflexivity.
  - apply list_elem_of_here.
Defined.

(** ** Numbers in decimal *)

Module DigitFacts.
Import Js JsFacts CsvParser.

Lemma spanDigits_cons_digit c s :
  isDigit c = true ->
  spanDigits (String c s) = (String c (fst (spanDigits s)), snd (spanDigits s)).
Proof. intros H. simpl. rewrite H. by destruct (spanDigits s). Qed.

Lemma digitString_cons c s :
  isDigit c = true -> s = EmptyString \/ digitString s -> digitString (String c s).
Proof.
  intros Hc Hs. split; [done|]. rewrite spanDigits_cons_digit by done.
  destruct Hs as [->|[_ ->]]; done.
Qed.

Lemma string_of_uint_digits d :
  d <> Decimal.Nil -> digitString (NilEmpty.string_of_uint d).
Proof.
  induction d as [|d IH|d IH|d IH|d IH|d IH|d IH|d IH|d IH|d IH|d IH];
    intros Hd; [done|..];
    (apply digitString_cons; [done|]);
    (destruct d; [by left|right; by apply IH..]).
Qed.

Lemma to_uint_not_nil n : Nat.to_uint n <> Decimal.Nil.
Proof.
  intros E. pose proof (DecimalNat.Unsigned.of_to n) as H. rewrite E in H.
  simpl in H. subst n. discriminate E.
Qed.

Lemma natToString_digits n : digitString (natToString n).
Proof. apply string_of_uint_digits, to_uint_not_nil. Qed.

(** A digit string holds digits only. *)
Lemma digitString_without c s :
  isDigit c = false -> spanDigits s = (s, EmptyString) ->
  includes (String c EmptyString) s = false.
Proof.
  intros Hc. induction s as [|d s IH]; [done|]. simpl.
  destruct (isDigit d) eqn:Hd; [|done].
  destruct (spanDigits s) as [ds rest] eqn:E. intros [= -> ->].
  rewrite andb_true_r, (IH eq_refl), orb_false_r.
  apply bool_decide_eq_false. intros ->. congruence.
Qed.

Lemma spanDigits_app digits rest :
  spanDigits digits = (digits, EmptyString) ->
  match rest with String c _ => isDigit c = false | EmptyString => True end ->
  spanDigits (digits +:+ rest) = (digits, rest).
Proof.
  intros Hd Hrest. induction digits as [|d digits IH].
  - rewrite append_empty_l. destruct rest as [|c rest]; [done|]. simpl. by rewrite Hrest.
  - rewrite append_cons. simpl in *. destruct (isDigit d); [|done].
    destruct (spanDigits digits) as [ds r] eqn:E. injection Hd as -> ->.
    by rewrite (IH eq_refl).
Qed.

End DigitFacts.

Import DigitFacts.

(** X12.  The estimated time of a record with an array of n steps: 5m up
    to two steps, two minutes per step below thirty steps, and from thirty
    steps on one hour per thirty steps plus two minutes for each remaining
    step, the minutes left out when none remain. *)
Theorem estimateTime_of_steps testCase (steps : list string) :
  props testCase !! "steps" = Some (PArr steps) ->
  estimateTime testCase =
  (let n := length steps in
   if n <=? 2 then "5m"
   else if n <? 30 then natToString (2 * n) +:+ "m"
   else if n mod 30 =? 0 then natToString (n / 30) +:+ "h"
   else natToString (n / 30) +:+ "h " +:+ natToString (2 * (n mod 30)) +:+ "m").
Proof.
  intros Hsteps. unfold estimateTime. rewrite Hsteps. cbn [truthyProp negb].
  cbv zeta. generalize (length steps) as n. intros n.
  destruct (Nat.leb_spec n 2) as [Hn|Hn].
  - replace (Nat.max (n * 2) 5) with 5 by lia. reflexivity.
  - replace (Nat.max (n * 2) 5) with (2 * n) by lia.
    destruct (Nat.ltb_spec n 30) as [Hm|Hm].
    + rewrite (proj2 (Nat.leb_gt _ _)) by lia. reflexivity.
    + rewrite (proj2 (Nat.leb_le _ _)) by lia.
      change 60 with (2 * 30).
      rewrite Nat.Div0.div_mul_cancel_l by lia. rewrite Nat.Div0.mul_mod_distr_l.
      destruct (Nat.eqb_spec (n mod 30) 0) as [E|E].
      * rewrite E. reflexivity.
      * rewrite (proj2 (Nat.ltb_lt _ _)) by lia. reflexivity.
Qed.

Lemma estimateTime_of_steps_witness :
  estimateTime (mkTestCase {[ "steps" := PArr (replicate 40 "Click next") ]} None) =
  "1h 20m".
Proof.
  apply (estimateTime_of_steps _ (replicate 40 "Click next")). reflexivity.
Defined.

(** ** Steps, written out and read back *)

Module StepFacts.
Import Js JsFacts CsvParser ZephyrExporter App TokenizerFacts RowFacts TrimFacts DigitFacts.




Lemma trim_cons_space w s : isWhiteSpace w = true -> trim (String w s) = trim s.
Proof. intros Hw. unfold trim. simpl. by rewrite Hw. Qed.


(** Splitting at pipes after a leading space. *)
Lemma split_cons_space sep w s :
  isWhiteSpace w = true -> w <> sep ->
  trim <$> split sep (String w s) = trim <$> split sep s.
Proof.
  intros Hw Hne. simpl split. destruct (decide (w = sep)); [done|].
  destruct (split_cons_inv sep s) as (h & t & ->).
  rewrite !fmap_cons. by rewrite trim_cons_space.
Qed.

Lemma split_join_spaced (steps : list string) x :
  Forall plainStep (x :: steps) -> Forall trimmed (x :: steps) ->
  trim <$> split "|"%char (join " | " (x :: steps)) = x :: steps.
Proof.
  revert x. induction steps as [|y l IH]; intros x Hplain Htrim.
  - apply Forall_inv in Hplain as [Hp _]. apply Forall_inv in Htrim.
    simpl join. by rewrite split_no_sep, fmap_cons, Htrim.
  - apply Forall_cons in Hplain as [[Hp _] Hplain].
    apply Forall_cons in Htrim as [Hx Htrim].
    rewrite join_cons_cons.
    change (x +:+ " | " +:+ join " | " (y :: l))
      with (x +:+ String " " (String "|" (String " " (join " | " (y :: l))))).
    rewrite <- append_snoc.
    rewrite split_app_sep by (by rewrite includes_char_app, Hp).
    rewrite fmap_cons, trim_snoc, Hx by done. f_equal.
    rewrite split_cons_space by done. by apply IH.
Qed.

Lemma natToString_without c n :
  isDigit c = false -> includes (String c EmptyString) (natToString n) = false.
Proof.
  intros Hc. apply digitString_without; [done|]. apply natToString_digits.
Qed.

Lemma qualityCell_plain q :
  includes "," (qualityCell q) = false /\ quoteFree (qualityCell q).
Proof.
  unfold qualityCell, quoteFree, DQ. destruct (Qlt_le_dec 0 q); [|done].
  unfold toFixed1. rewrite !includes_char_app.
  by rewrite !natToString_without.
Qed.

Lemma decodeSteps_join_spaced (steps : list string) :
  steps <> [] -> Forall plainStep steps -> Forall trimmed steps ->
  decodeSteps (join " | " steps) = steps.
Proof.
  intros Hne Hplain Htrim. destruct steps as [|x [|y l]]; [done| |].
  - apply Forall_inv in Hplain as [Hp Hl]. unfold decodeSteps. simpl join.
    by rewrite Hp, Hl.
  - unfold decodeSteps.
    assert (Hpipe : includes "|" (join " | " (x :: y :: l)) = true).
    { rewrite join_cons_cons, includes_char_app.
      change (" | " +:+ join " | " (y :: l))
        with (String " " (String "|" (String " " (join " | " (y :: l))))).
      rewrite !includes_char_cons. simpl. apply orb_true_r. }
    rewrite Hpipe. by apply split_join_spaced.
Qed.

(** The cells of an exported row, as the tokenizer reads them. *)
Lemma parseCSVLine_csvRow qualityReport testCase :
  let idCell := joinElement (props testCase !! "id") in
  let title := templateString (props testCase !! "title") in
  let steps := templateString
                 (match props testCase !! "steps" with
                  | Some (PArr a) => Some (PStr (join " | " a))
                  | other => other
                  end) in
  let expected := templateString (props testCase !! "expected") in
  let priority := joinElement (props testCase !! "priority") in
  includes "," idCell = false -> quoteFree idCell ->
  quoteFree title -> quoteFree steps -> quoteFree expected ->
  includes "," priority = false -> quoteFree priority ->
  parseCSVLine (join "," (csvRow qualityReport testCase)) =
  trim <$> [idCell; title; steps; expected; priority;
            qualityCell (scoreFor qualityReport testCase)].
Proof.
  intros idCell title steps expected priority Hi1 Hi2 Ht Hs He Hp1 Hp2.
  unfold parseCSVLine.
  rewrite (parseCSVLineLoop_fields _
             [idCell; title; steps; expected; priority;
              qualityCell (scoreFor qualityReport testCase)]); [done| |done].
  unfold csvRow. fold idCell title steps expected priority.
  assert (Hq : forall s, quoteFree s -> fieldEncodes (DQ +:+ s +:+ DQ) s).
  { intros s Hs'. right. by rewrite replaceQuotes_quoteFree. }
  destruct (qualityCell_plain (scoreFor qualityReport testCase)) as [Hc1 Hc2].
  constructor; [by left|]. do 3 (constructor; [by apply Hq|]).
  do 2 (constructor; [by left|]). constructor.
Qed.






End StepFacts.

Import StepFacts.



(** X14.  The steps cell of the plain-CSV export (the steps joined by a
    pipe between two spaces) is decoded by the mapper into the steps
    themselves, for a non-empty sequence of steps without pipe and line
    feed and without white space at their ends. *)
Theorem exported_steps_round_trip (steps : list string) :
  steps <> [] -> Forall plainStep steps -> Forall trimmed steps ->
  decodeSteps (join " | " steps) = steps.
Proof. apply decodeSteps_join_spaced. Qed.

Lemma exported_steps_round_trip_witness :
  decodeSteps (join " | " ["Enter user"; "Click login"]) =
  ["Enter user"; "Click login"].
Proof.
  apply exported_steps_round_trip.
  - discriminate.
  - repeat constructor.
  - repeat constructor.
Defined.

(** X15.  A row of the plain-CSV export is tokenized back into its six
    cells (id, title, steps joined, expected result, priority, score),
    each trimmed, provided the title, the joined steps and the expected
    result hold no double quote and the id and the priority hold neither
    double quote nor comma. *)
Theorem exported_row_read_back qualityReport testCase :
  let idCell := joinElement (props testCase !! "id") in
  let title := templateString (props testCase !! "title") in
  let steps := templateString
                 (match props testCase !! "steps" with
                  | Some (PArr a) => Some (PStr (join " | " a))
                  | other => other
                  end) in
  let expected := templateString (props testCase !! "expected") in
  let priority := joinElement (props testCase !! "priority") in
  includes "," idCell = false -> quoteFree idCell ->
  quoteFree title -> quoteFree steps -> quoteFree expected ->
  includes "," priority = false -> quoteFree priority ->
  parseCSVLine (join "," (csvRow qualityReport testCase)) =
  trim <$> [idCell; title; steps; expected; priority;
            qualityCell (scoreFor qualityReport testCase)].
Proof. apply parseCSVLine_csvRow. Qed.

Lemma exported_row_read_back_witness :
  parseCSVLine (join "," (csvRow None e2eRecord)) =
  ["TC-001"; "Login works"; "Enter user | Click login"; "User is logged in";
   "High"; "N/A"].
Proof.
  apply (exported_row_read_back None e2eRecord); reflexivity.
Defined.

(** ** An exported row, imported again *)

Module ReimportFacts.
Import Js JsFacts CsvParser ZephyrExporter App TokenizerFacts MapperFacts RowFacts TrimFacts StepFacts.






End ReimportFacts.

Import ReimportFacts.



(** ** A whole export, imported again *)

Module FileFacts.
Import Js JsFacts CsvParser ZephyrExporter App TokenizerFacts MapperFacts RowFacts
  TrimFacts DigitFacts StepFacts InputFacts ReimportFacts.










End FileFacts.

Import FileFacts.



(** ** The Zephyr row, read back *)

Module ZephyrFacts.
Import Js JsFacts CsvParser ZephyrExporter App TokenizerFacts MapperFacts RowFacts
  TrimFacts DigitFacts StepFacts.

Lemma fieldEncodes_escape v : fieldEncodes (escapeCSVField v) (propToString v).
Proof.
  destruct v as [s|a]; [apply fieldEncodes_escapeCSVField|].
  unfold escapeCSVField. cbn [truthyProp negb propToString].
  destruct (includes "," (join "," a) || includes LF (join "," a) ||
            includes DQ (join "," a)) eqn:Hq; [by right|].
  apply orb_false_elim in Hq as [[H1 _]%orb_false_elim H3]. by left.
Qed.

Lemma estimateTime_plain testCase :
  includes "," (estimateTime testCase) = false /\ quoteFree (estimateTime testCase).
Proof.
  unfold estimateTime, quoteFree, DQ.
  destruct (negb _); [done|]. destruct (60 <=? _); [destruct (0 <? _)|];
    rewrite !includes_char_app; by rewrite !natToString_without.
Qed.

Lemma fieldEncodes_plain s :
  includes "," s = false -> quoteFree s -> fieldEncodes s s.
Proof. by left. Qed.

(** The row of the Zephyr export: escaped cells, and the four cells
    written as they are. *)
Lemma zephyrRow_encodes testCase :
  let priority := propToString (propOr (props testCase !! "priority") "Medium") in
  let component := propToString (propOr (props testCase !! "category") "Functional") in
  let labels := formatLabels testCase in
  includes "," priority = false -> quoteFree priority ->
  includes "," component = false -> quoteFree component ->
  includes "," labels = false -> quoteFree labels ->
  Forall2 fieldEncodes (zephyrRow testCase) (zephyrCells testCase).
Proof.
  intros priority component labels Hp1 Hp2 Hc1 Hc2 Hl1 Hl2.
  destruct (estimateTime_plain testCase) as [He1 He2].
  unfold zephyrRow, zephyrCells. cbv zeta.
  repeat first [ apply Forall2_nil_2
               | apply Forall2_cons_2;
                 [ first [ apply fieldEncodes_escape
                         | apply (fieldEncodes_escape (PStr _))
                         | by apply fieldEncodes_plain ] | ] ].
Qed.

(** The same without the Labels cell: the seven cells before it and the
    nine after it. *)
Lemma zephyrRow_encodes_around testCase :
  let priority := propToString (propOr (props testCase !! "priority") "Medium") in
  let component := propToString (propOr (props testCase !! "category") "Functional") in
  includes "," priority = false -> quoteFree priority ->
  includes "," component = false -> quoteFree component ->
  Forall2 fieldEncodes (take 7 (zephyrRow testCase)) (take 7 (zephyrCells testCase)) /\
  Forall2 fieldEncodes (drop 8 (zephyrRow testCase)) (drop 8 (zephyrCells testCase)).
Proof.
  intros priority component Hp1 Hp2 Hc1 Hc2.
  destruct (estimateTime_plain testCase) as [He1 He2].
  unfold zephyrRow, zephyrCells. cbv zeta. cbn [take drop].
  split;
    repeat first [ apply Forall2_nil_2
                 | apply Forall2_cons_2;
                   [ first [ apply fieldEncodes_escape
                           | apply (fieldEncodes_escape (PStr _))
                           | by apply fieldEncodes_plain ] | ] ].
Qed.

(** A cell holding a separator is, in the joined row, two cells. *)
Lemma join_cell_split sep (before after : list string) a b :
  join sep (before ++ (a +:+ sep +:+ b) :: after) = join sep (before ++ a :: b :: after).
Proof.
  induction before as [|x before IH].
  - simpl app. destruct after as [|y after].
    + done.
    + by rewrite !join_cons_cons, !append_assoc.
  - destruct before as [|x' before].
    + simpl app in *. by rewrite !join_cons_cons, IH.
    + change ((x :: x' :: before) ++ ?l) with (x :: x' :: (before ++ l)).
      rewrite !join_cons_cons. f_equal. f_equal. exact IH.
Qed.

Lemma formatLabels_both testCase :
  truthyProp (props testCase !! "category") = true ->
  truthyProp (props testCase !! "type") = true ->
  formatLabels testCase =
  joinElement (props testCase !! "category") +:+ "," +:+
  (" " +:+ joinElement (props testCase !! "type")).
Proof.
  intros Hc Ht. unfold formatLabels. cbv zeta. rewrite Hc, Ht.
  cbn [app join]. reflexivity.
Qed.

End ZephyrFacts.

Import ZephyrFacts.

(** X18.  A row of the Zephyr export is tokenized back into its seventeen
    cells, each trimmed, provided the cells the formatter writes without
    escaping hold neither comma nor double quote: the priority, the
    component and the labels (the estimated time never does). *)
Theorem zephyr_row_read_back testCase :
  let priority := propToString (propOr (props testCase !! "priority") "Medium") in
  let component := propToString (propOr (props testCase !! "category") "Functional") in
  let labels := formatLabels testCase in
  includes "," priority = false -> quoteFree priority ->
  includes "," component = false -> quoteFree component ->
  includes "," labels = false -> quoteFree labels ->
  parseCSVLine (join "," (zephyrRow testCase)) = trim <$> zephyrCells testCase /\
  length (parseCSVLine (join "," (zephyrRow testCase))) = length zephyrHeaders.
Proof.
  intros priority component labels Hp1 Hp2 Hc1 Hc2 Hl1 Hl2.
  assert (E : parseCSVLine (join "," (zephyrRow testCase)) = trim <$> zephyrCells testCase).
  { unfold parseCSVLine.
    rewrite (parseCSVLineLoop_fields _ (zephyrCells testCase)); [done| |done].
    by apply zephyrRow_encodes. }
  split; [done|]. by rewrite E, length_fmap.
Qed.

Lemma zephyr_row_read_back_witness :
  parseCSVLine (join "," (zephyrRow e2eRecord)) = trim <$> zephyrCells e2eRecord /\
  length (parseCSVLine (join "," (zephyrRow e2eRecord))) = length zephyrHeaders.
Proof. apply (zephyr_row_read_back e2eRecord); reflexivity. Defined.

(** X19.  When a record has both a category and a type (neither holding
    a comma or a double quote, nor the priority), the Labels cell, written
    as the two joined by a comma and a space and not escaped, is read back
    as two fields, the category and the type: the row of seventeen cells
    is tokenized into eighteen fields. *)
Theorem zephyr_labels_two_fields testCase :
  let priority := propToString (propOr (props testCase !! "priority") "Medium") in
  let component := propToString (propOr (props testCase !! "category") "Functional") in
  let category := joinElement (props testCase !! "category") in
  let type := joinElement (props testCase !! "type") in
  truthyProp (props testCase !! "category") = true ->
  truthyProp (props testCase !! "type") = true ->
  includes "," priority = false -> quoteFree priority ->
  includes "," component = false -> quoteFree component ->
  includes "," category = false -> quoteFree category ->
  includes "," type = false -> quoteFree type ->
  parseCSVLine (join "," (zephyrRow testCase)) =
    trim <$> (take 7 (zephyrCells testCase) ++ category :: type ::
              drop 8 (zephyrCells testCase)) /\
  length (parseCSVLine (join "," (zephyrRow testCase))) = 18.
Proof.
  intros priority component category type Hcat Htype Hp1 Hp2 Hc1 Hc2 Hk1 Hk2 Ht1 Ht2.
  destruct (zephyrRow_encodes_around testCase Hp1 Hp2 Hc1 Hc2) as [Hpre Hpost].
  assert (Hrow : zephyrRow testCase =
            take 7 (zephyrRow testCase) ++
            (category +:+ "," +:+ (" " +:+ type)) :: drop 8 (zephyrRow testCase)).
  { unfold category, type. rewrite <- (formatLabels_both testCase Hcat Htype).
    reflexivity. }
  assert (E : parseCSVLine (join "," (zephyrRow testCase)) =
            trim <$> (take 7 (zephyrCells testCase) ++ category :: (" " +:+ type) ::
                      drop 8 (zephyrCells testCase))).
  { rewrite Hrow at 1. rewrite join_cell_split. unfold parseCSVLine.
    rewrite (parseCSVLineLoop_fields _
               (take 7 (zephyrCells testCase) ++ category :: (" " +:+ type) ::
                drop 8 (zephyrCells testCase))); [done| |].
    - apply Forall2_app; [done|].
      constructor; [by left|]. constructor; [|done].
      left. split; [done|]. unfold quoteFree, DQ in *.
      rewrite !includes_char_app. by rewrite Ht1, Ht2.
    - intros E. apply (f_equal length) in E. rewrite length_app in E. simpl in E. lia. }
  assert (Htrim : trim <$> (take 7 (zephyrCells testCase) ++ category :: (" " +:+ type) ::
                            drop 8 (zephyrCells testCase)) =
                  trim <$> (take 7 (zephyrCells testCase) ++ category :: type ::
                            drop 8 (zephyrCells testCase))).
  { rewrite !fmap_app, !fmap_cons. reflexivity. }
  rewrite E, Htrim. split; [done|]. rewrite length_fmap. reflexivity.
Qed.

Lemma zephyr_labels_two_fields_witness :
  length (parseCSVLine (join "," (zephyrRow
    (mkTestCase (<["category" := PStr "Functional"]>
                   (<["type" := PStr "Smoke"]> {["title" := PStr "Login"]})) None)))) = 18.
Proof.
  refine (proj2 (zephyr_labels_two_fields
            (mkTestCase (<["category" := PStr "Functional"]>
                           (<["type" := PStr "Smoke"]> {["title" := PStr "Login"]})) None)
            _ _ _ _ _ _ _ _ _ _)); reflexivity.
Defined.

(** ** The score cell, read back *)

Module ScoreFacts.
Import Js JsFacts CsvParser ZephyrExporter App TokenizerFacts MapperFacts RowFacts
  TrimFacts DigitFacts StepFacts.

Lemma digitsValue_string_of_uint d acc :
  digitsValue (Z.of_nat acc) (NilEmpty.string_of_uint d) =
  Z.of_nat (Nat.of_uint_acc d acc).
Proof.
  revert acc.
  induction d as [|d IH|d IH|d IH|d IH|d IH|d IH|d IH|d IH|d IH|d IH];
    intros acc; [done|..];
    cbn [NilEmpty.string_of_uint digitsValue Nat.of_uint_acc];
    rewrite <- IH; f_equal; rewrite Nat.tail_mul_spec;
    match goal with |- context [digitValue ?c] =>
      let v := eval vm_compute in (digitValue c) in change (digitValue c) with v end;
    lia.
Qed.

(** Printing a natural number and reading its digits gives it back. *)
Lemma digitsValue_natToString n : digitsValue 0 (natToString n) = Z.of_nat n.
Proof.
  unfold natToString. rewrite (digitsValue_string_of_uint _ 0).
  change (Nat.of_uint_acc (Nat.to_uint n) 0) with (Nat.of_uint (Nat.to_uint n)).
  by rewrite DecimalNat.Unsigned.of_to.
Qed.

Lemma natToString_digit m :
  m < 10 ->
  exists c, natToString m = String c EmptyString /\ isDigit c = true /\
            digitValue c = Z.of_nat m.
Proof.
  intros Hm.
  do 10 (destruct m as [|m]; [eexists; split; [|split]; reflexivity|]). lia.
Qed.

(** The score pattern on digits, a dot, one digit and the suffix. *)
Lemma scoreMatch_decimal digits c :
  digitString digits -> isDigit c = true ->
  scoreMatch (digits +:+ String "." (String c "/10")) = Some (digits, String c EmptyString).
Proof.
  intros [Hne Hspan] Hc.
  assert (E : spanDigits (digits +:+ String "." (String c "/10")) =
              (digits, String "." (String c "/10"))) by (by apply spanDigits_app).
  destruct digits as [|a digits]; [done|]. rewrite append_cons in *.
  cbn [scoreMatch]. simpl in Hspan. destruct (isDigit a) eqn:Ha; [|done].
  rewrite E. cbn [spanDigits]. by rewrite Hc.
Qed.

End ScoreFacts.

Import ScoreFacts.

(** X20.  In the cell the plain-CSV export writes for a positive score
    below 10^21, the score pattern of the mapper matches exactly the text
    toFixed(1) wrote, its integer digits and its one fraction digit, and
    nothing of the suffix /10; in the cell N/A it matches nothing, and the
    record gets the quality score 0. *)
Theorem score_cell_read_back score testCase :
  ((0 < score)%Q -> (score < 1000000000000000000000)%Q ->
   let n := Z.to_nat (Qfloor (score * 10 + (1 # 2))) in
   qualityCell score = natToString (n / 10) +:+ "." +:+ natToString (n mod 10) +:+ "/10" /\
   scoreMatch (qualityCell score) = Some (natToString (n / 10), natToString (n mod 10)) /\
   String.length (natToString (n mod 10)) = 1) /\
  (~ (0 < score)%Q ->
   qualityCell score = "N/A" /\
   scoreMatch (qualityCell score) = None /\
   qualityScore (assignField "Quality Score" (qualityCell score) testCase) = Some 0%Q).
Proof.
  split.
  - intros Hpos _ n. unfold qualityCell.
    destruct (Qlt_le_dec 0 score) as [_|Hle]; [|by apply Qle_not_lt in Hle].
    unfold toFixed1. fold n.
    destruct (natToString_digit (n mod 10)) as (c & Hc & Hd & Hv).
    { apply Nat.mod_upper_bound. lia. }
    split; [by rewrite append_assoc|]. rewrite Hc. split; [|done].
    rewrite !append_assoc.
    change ("." +:+ String c EmptyString +:+ "/10") with (String "." (String c "/10")).
    apply scoreMatch_decimal; [apply natToString_digits|done].
  - intros Hneg.
    assert (Hcell : qualityCell score = "N/A").
    { unfold qualityCell. by destruct (Qlt_le_dec 0 score). }
    rewrite Hcell. done.
Qed.

Lemma score_cell_read_back_witness :
  scoreMatch (qualityCell (29 # 4)) = Some ("7", "3").
Proof.
  refine (proj1 (proj2 (proj1 (score_cell_read_back (29 # 4) emptyTestCase) _ _))).
  - reflexivity.
  - reflexivity.
Defined.
